(** * Chat version navigation and message editing

    A shallow embedding of the state logic of
    [src/components/Chat/VersionNavigator.tsx] (both revisions found in the
    file), [src/components/Chat/MessageEditor.tsx] and the revision of
    [ChatMessage.tsx] that hosts them, followed by the properties of the
    version controller and of the editing mediator.

    Conventions of the embedding:
    - a JavaScript [number] holding a version number or a count is a [Z];
    - a JavaScript string is the list of its UTF-16 code units;
    - React state is a record, a [setX] call is a record update, and a handler
      is a computation in a state-and-exception monad over a world made of the
      props, the component state, the external environment (the version store
      and the clipboard) and the log of calls that leave the component;
    - an [await] runs the awaited call to completion: a handler is one atomic
      step, as in the single-threaded event loop when no other event is
      delivered while the call is pending. *)

From Stdlib Require Import ZArith NArith List String Ascii Bool Lia.
Import ListNotations.
Open Scope Z_scope.

Set Implicit Arguments.

(* ================================================================== *)
(** ** JavaScript strings *)
(* ================================================================== *)

Module JsString.

(** A string value: its UTF-16 code units. *)
Definition jsstring := list N.

(** A literal made of ASCII characters. *)
Definition js (s : string) : jsstring :=
  List.map N_of_ascii (list_ascii_of_string s).
Arguments js : simpl never.

(** [a === b] on strings. *)
Fixpoint strict_eq (a b : jsstring) : bool :=
  match a, b with
  | [], [] => true
  | x :: a', y :: b' => N.eqb x y && strict_eq a' b'
  | _, _ => false
  end.

(** Truthiness of a string: every string but the empty one. *)
Definition truthy (s : jsstring) : bool :=
  match s with
  | [] => false
  | _ :: _ => true
  end.

(** The code units [String.prototype.trim] strips: ECMAScript WhiteSpace
    and LineTerminator. *)
Definition is_white_space (c : N) : bool :=
  ((9 <=? c) && (c <=? 13) || (c =? 32) || (c =? 160) || (c =? 5760)
   || (8192 <=? c) && (c <=? 8202) || (c =? 8232) || (c =? 8233)
   || (c =? 8239) || (c =? 8287) || (c =? 12288) || (c =? 65279))%N.

Fixpoint trimStart (s : jsstring) : jsstring :=
  match s with
  | [] => []
  | c :: r => if is_white_space c then trimStart r else s
  end.

Fixpoint trimEnd (s : jsstring) : jsstring :=
  match s with
  | [] => []
  | c :: r =>
      match trimEnd r with
      | [] => if is_white_space c then [] else [c]
      | r' => c :: r'
      end
  end.

(** [s.trim()] *)
Definition trim (s : jsstring) : jsstring := trimEnd (trimStart s).

(** [a || b] on an optional string ([undefined] and the empty string are
    falsy). *)
Definition or_else (a : option jsstring) (b : jsstring) : jsstring :=
  match a with
  | Some s => if truthy s then s else b
  | None => b
  end.

End JsString.
Import JsString.

(* ================================================================== *)
(** ** Data model *)
(* ================================================================== *)

(** [role: 'user' | 'assistant'] *)
Inductive Role := user | assistant.

(** [ChatVersion], with the fields the components read. *)
Record ChatVersion := mkChatVersion {
  versionId : jsstring;
  versionNumber : Z;
  isCurrentVersion : bool;
  content : jsstring;
  contentPreview : jsstring;
  createdAt : jsstring;
  wordCount : Z;
  characterCount : Z
}.

(** A value thrown by a rejected promise, read through [error.message]. *)
Record JsError := mkJsError { message : option jsstring }.

(** An element the menu is anchored to ([event.currentTarget]). *)
Definition HTMLElement := nat.

(** How a call ends: it returns a value or throws. *)
Inductive outcome (A : Type) :=
| Returned (a : A)
| Thrown (e : JsError).
Arguments Returned {A} a.
Arguments Thrown {A} e.

(** What leaves the component: calls to the versioning service, to the
    clipboard and to the console, and the callbacks of the host. *)
Inductive Event :=
| CallGetChatVersions (chat : jsstring) (versionType : Role) (limit : Z)
| CallSwitchToVersion (chat : jsstring) (n : Z) (versionType : Role)
| CallDeleteVersion (chat : jsstring) (n : Z) (r : Role)
| CallCompareVersions (chat : jsstring) (a b : Z) (r : Role)
| CallOnLoadVersions (chat : jsstring)
| CallClipboardWriteText (text : jsstring)
| HostOnVersionChange (n : Z)
| ConsoleError (label : jsstring)
| ConsoleLog (label : jsstring).

(** The external collaborators. [../../services/versioning], the host's
    [onLoadVersions] and [navigator.clipboard] are not part of the components:
    they are taken as an interface over an environment state [E], every call
    returning how it ended and the environment afterwards. The list call
    returns [response.data.versions]; the result of a comparison is opaque to
    the component, which only logs it. *)
Class Environment (E : Type) := {
  getChatVersions : jsstring -> Role -> Z -> E -> outcome (list ChatVersion) * E;
  switchToVersion : jsstring -> Z -> Role -> E -> outcome unit * E;
  deleteVersion : jsstring -> Z -> Role -> E -> outcome unit * E;
  compareVersions : jsstring -> Z -> Z -> Role -> E -> outcome unit * E;
  onLoadVersions : jsstring -> E -> outcome (list ChatVersion) * E;
  clipboardWriteText : jsstring -> E -> outcome unit * E
}.

(* ================================================================== *)
(** ** The handler monad *)
(* ================================================================== *)

Section Monad.

Variables (P St E : Type).

(** The world a handler runs in: the props of the render whose closure the
    handler is, the component state, the environment and the log. *)
Record World := mkWorld {
  w_props : P;
  w_state : St;
  w_env : E;
  w_log : list Event
}.

Definition M (A : Type) := World -> outcome A * World.

Definition ret {A} (a : A) : M A := fun w => (Returned a, w).

Definition bind {A B} (m : M A) (k : A -> M B) : M B :=
  fun w =>
    match m w with
    | (Returned a, w') => k a w'
    | (Thrown e, w') => (Thrown e, w')
    end.

(** [try { body } catch (error) { handler }] *)
Definition try_catch {A} (body : M A) (handler : JsError -> M A) : M A :=
  fun w =>
    match body w with
    | (Returned a, w') => (Returned a, w')
    | (Thrown e, w') => handler e w'
    end.

(** [try { body } catch (error) { handler } finally { final }] *)
Definition try_catch_finally {A} (body : M A) (handler : JsError -> M A)
           (final : M unit) : M A :=
  fun w =>
    match try_catch body handler w with
    | (r, w') =>
        match final w' with
        | (Returned _, w'') => (r, w'')
        | (Thrown e, w'') => (Thrown e, w'')
        end
    end.

Definition props : M P := fun w => (Returned (w_props w), w).

Definition state : M St := fun w => (Returned (w_state w), w).

(** A state setter, also in its functional form [setX(prev => ...)]. *)
Definition modify (f : St -> St) : M unit :=
  fun w => (Returned tt, mkWorld (w_props w) (f (w_state w)) (w_env w) (w_log w)).

(** A call that only leaves a trace: a host callback, the console. *)
Definition emit (ev : Event) : M unit :=
  fun w => (Returned tt, mkWorld (w_props w) (w_state w) (w_env w) (w_log w ++ [ev])).

(** [await f(...)]: the call is logged, the environment answers. *)
Definition call {A} (ev : Event) (f : E -> outcome A * E) : M A :=
  fun w =>
    match f (w_env w) with
    | (r, e') => (r, mkWorld (w_props w) (w_state w) e' (w_log w ++ [ev]))
    end.

(** The world a handler leaves. *)
Definition exec {A} (m : M A) (w : World) : World := snd (m w).

(** Whether a handler returned (rather than threw). *)
Definition returns {A} (m : M A) (w : World) : bool :=
  match fst (m w) with
  | Returned _ => true
  | Thrown _ => false
  end.

End Monad.

Arguments mkWorld {P St E} _ _ _ _.
Arguments w_props {P St E} _.
Arguments w_state {P St E} _.
Arguments w_env {P St E} _.
Arguments w_log {P St E} _.
Arguments ret {P St E A} _ _.
Arguments bind {P St E A B} _ _ _.
Arguments try_catch {P St E A} _ _ _.
Arguments try_catch_finally {P St E A} _ _ _ _.
Arguments props {P St E} _.
Arguments state {P St E} _.
Arguments modify {P St E} _ _.
Arguments emit {P St E} _ _.
Arguments call {P St E A} _ _ _.
Arguments exec {P St E A} _ _.
Arguments returns {P St E A} _ _.

Declare Scope handler_scope.
Delimit Scope handler_scope with handler.
Notation "x <- m ;; k" := (bind m (fun x => k))
  (at level 61, m at next level, right associativity) : handler_scope.
Notation "m ;; k" := (bind m (fun _ => k))
  (at level 61, right associativity) : handler_scope.
Open Scope handler_scope.

(** The number of calls to the store's delete operation in a log. *)
Definition is_delete_call (ev : Event) : bool :=
  match ev with
  | CallDeleteVersion _ _ _ => true
  | _ => false
  end.

Definition is_switch_call (ev : Event) : bool :=
  match ev with
  | CallSwitchToVersion _ _ _ => true
  | _ => false
  end.

Definition is_list_call (ev : Event) : bool :=
  match ev with
  | CallGetChatVersions _ _ _ => true
  | CallOnLoadVersions _ => true
  | _ => false
  end.

Definition is_version_change (ev : Event) : bool :=
  match ev with
  | HostOnVersionChange _ => true
  | _ => false
  end.

Definition count_events (p : Event -> bool) (l : list Event) : nat :=
  List.length (List.filter p l).

(* ================================================================== *)
(** ** VersionNavigator, the revision over the versioning service *)
(* ================================================================== *)

Module Navigator.

(** [VersionNavigationProps]; the callbacks are the environment's. *)
Record Props := mkProps {
  chatId : jsstring;
  role : Role;
  currentVersion : Z;
  totalVersions : Z;
  hasMultipleVersions : bool;
  disabled : bool
}.

(** The [useState] cells of the component. *)
Record State := mkState {
  versions : list ChatVersion;
  dialogOpen : bool;
  loading : bool;
  error : option jsstring;
  menuAnchorEl : option HTMLElement;
  selectedVersionForMenu : option ChatVersion;
  compareMode : bool;
  selectedVersions : list Z
}.

(** The state of a freshly mounted component. *)
Definition initial : State := mkState [] false false None None None false [].

Definition with_versions (f : list ChatVersion -> list ChatVersion) (s : State) :=
  mkState (f (versions s)) (dialogOpen s) (loading s) (error s) (menuAnchorEl s)
          (selectedVersionForMenu s) (compareMode s) (selectedVersions s).
Definition with_dialogOpen (f : bool -> bool) (s : State) :=
  mkState (versions s) (f (dialogOpen s)) (loading s) (error s) (menuAnchorEl s)
          (selectedVersionForMenu s) (compareMode s) (selectedVersions s).
Definition with_loading (f : bool -> bool) (s : State) :=
  mkState (versions s) (dialogOpen s) (f (loading s)) (error s) (menuAnchorEl s)
          (selectedVersionForMenu s) (compareMode s) (selectedVersions s).
Definition with_error (f : option jsstring -> option jsstring) (s : State) :=
  mkState (versions s) (dialogOpen s) (loading s) (f (error s)) (menuAnchorEl s)
          (selectedVersionForMenu s) (compareMode s) (selectedVersions s).
Definition with_menuAnchorEl (f : option HTMLElement -> option HTMLElement) (s : State) :=
  mkState (versions s) (dialogOpen s) (loading s) (error s) (f (menuAnchorEl s))
          (selectedVersionForMenu s) (compareMode s) (selectedVersions s).
Definition with_selectedVersionForMenu (f : option ChatVersion -> option ChatVersion)
           (s : State) :=
  mkState (versions s) (dialogOpen s) (loading s) (error s) (menuAnchorEl s)
          (f (selectedVersionForMenu s)) (compareMode s) (selectedVersions s).
Definition with_compareMode (f : bool -> bool) (s : State) :=
  mkState (versions s) (dialogOpen s) (loading s) (error s) (menuAnchorEl s)
          (selectedVersionForMenu s) (f (compareMode s)) (selectedVersions s).
Definition with_selectedVersions (f : list Z -> list Z) (s : State) :=
  mkState (versions s) (dialogOpen s) (loading s) (error s) (menuAnchorEl s)
          (selectedVersionForMenu s) (compareMode s) (f (selectedVersions s)).

(** [selectedVersions.includes(n)] *)
Definition includes (l : list Z) (n : Z) : bool := existsb (Z.eqb n) l.

(** A handler of the component, over an environment [E]. *)
Definition Handler (E : Type) := M Props State E.

Section Handlers.

Context {E : Type} {env : Environment E}.

Definition setVersions (v : list ChatVersion) : Handler E unit :=
  modify (with_versions (fun _ => v)).
Definition setDialogOpen (b : bool) : Handler E unit :=
  modify (with_dialogOpen (fun _ => b)).
Definition setLoading (b : bool) : Handler E unit :=
  modify (with_loading (fun _ => b)).
Definition setError (e : option jsstring) : Handler E unit :=
  modify (with_error (fun _ => e)).
Definition setMenuAnchorEl (a : option HTMLElement) : Handler E unit :=
  modify (with_menuAnchorEl (fun _ => a)).
Definition setSelectedVersionForMenu (v : option ChatVersion) : Handler E unit :=
  modify (with_selectedVersionForMenu (fun _ => v)).
Definition setCompareMode (b : bool) : Handler E unit :=
  modify (with_compareMode (fun _ => b)).
Definition setSelectedVersions (f : list Z -> list Z) : Handler E unit :=
  modify (with_selectedVersions f).

(** The host callback [onVersionChange(n)]. *)
Definition onVersionChange (n : Z) : Handler E unit :=
  emit (HostOnVersionChange n).

Definition loadVersions : Handler E unit :=
  p <- props ;;
  if negb (truthy (chatId p)) then ret tt
  else
    try_catch_finally
      (setLoading true ;;
       setError None ;;
       response <- call (CallGetChatVersions (chatId p) (role p) 50)
                        (getChatVersions (chatId p) (role p) 50) ;;
       setVersions response)
      (fun err =>
         emit (ConsoleError (js "Failed to load versions:")) ;;
         setError (Some (or_else (message err) (js "Failed to load versions"))))
      (setLoading false).

Definition handlePreviousVersion : Handler E unit :=
  p <- props ;;
  if 1 <? currentVersion p then onVersionChange (currentVersion p - 1)
  else onVersionChange (totalVersions p).

Definition handleNextVersion : Handler E unit :=
  p <- props ;;
  if currentVersion p <? totalVersions p then onVersionChange (currentVersion p + 1)
  else onVersionChange 1.

Definition handleVersionSelect (n : Z) : Handler E unit :=
  p <- props ;;
  try_catch_finally
    (setLoading true ;;
     call (CallSwitchToVersion (chatId p) n (role p))
          (switchToVersion (chatId p) n (role p)) ;;
     onVersionChange n ;;
     setDialogOpen false)
    (fun err =>
       setError (Some (or_else (message err) (js "Failed to switch version"))))
    (setLoading false).

Definition handleOpenDialog : Handler E unit :=
  setDialogOpen true ;;
  loadVersions.

Definition handleMenuOpen (target : HTMLElement) (version : ChatVersion)
  : Handler E unit :=
  setMenuAnchorEl (Some target) ;;
  setSelectedVersionForMenu (Some version).

Definition handleMenuClose : Handler E unit :=
  setMenuAnchorEl None ;;
  setSelectedVersionForMenu None.

Definition handleDeleteVersion (n : Z) : Handler E unit :=
  p <- props ;;
  s <- state ;;
  match selectedVersionForMenu s with
  | None => ret tt
  | Some _ =>
      try_catch
        (call (CallDeleteVersion (chatId p) n (role p))
              (deleteVersion (chatId p) n (role p)) ;;
         loadVersions ;;
         handleMenuClose)
        (fun err =>
           setError (Some (or_else (message err) (js "Failed to delete version"))))
  end.

Definition handleCopyVersion (text : jsstring) : Handler E unit :=
  try_catch
    (call (CallClipboardWriteText text) (clipboardWriteText text) ;;
     handleMenuClose)
    (fun _ => emit (ConsoleError (js "Failed to copy content:"))).

Definition toggleCompareMode : Handler E unit :=
  s <- state ;;
  setCompareMode (negb (compareMode s)) ;;
  setSelectedVersions (fun _ => []).

Definition handleVersionToggleForCompare (n : Z) : Handler E unit :=
  s <- state ;;
  if includes (selectedVersions s) n then
    setSelectedVersions (fun prev => filter (fun v => negb (v =? n)) prev)
  else if (Z.of_nat (List.length (selectedVersions s)) <? 2) then
    setSelectedVersions (fun prev => prev ++ [n])
  else ret tt.

Definition handleCompareVersions : Handler E unit :=
  p <- props ;;
  s <- state ;;
  match selectedVersions s with
  | [a; b] =>
      try_catch
        (call (CallCompareVersions (chatId p) a b (role p))
              (compareVersions (chatId p) a b (role p)) ;;
         emit (ConsoleLog (js "Version comparison:")))
        (fun err =>
           setError (Some (or_else (message err) (js "Failed to compare versions"))))
  | _ => ret tt
  end.

End Handlers.

(** *** What is rendered *)

(** One row of the version list. *)
Record ItemView := mkItemView {
  item_version : ChatVersion;
  item_selected : bool;
  item_current_chip : bool;
  item_selected_chip : bool
}.

Inductive DialogBody :=
| LoadingBody
| NoVersionsBody
| ListBody (items : list ItemView).

(** The versions dialog, when it is open. *)
Record DialogView := mkDialogView {
  compare_button : bool;
  compare_selected_button : bool;
  error_alert : option jsstring;
  dialog_body : DialogBody
}.

(** The actions menu, when it is open. *)
Record MenuView := mkMenuView {
  delete_item_disabled : bool
}.

Record View := mkView {
  controls_disabled : bool;
  label : Z * Z;
  dialog : option DialogView;
  menu : option MenuView
}.

Definition render_item (p : Props) (s : State) (v : ChatVersion) : ItemView :=
  mkItemView v
    (if compareMode s then includes (selectedVersions s) (versionNumber v)
     else versionNumber v =? currentVersion p)
    (isCurrentVersion v)
    (compareMode s && includes (selectedVersions s) (versionNumber v)).

Definition render_dialog (p : Props) (s : State) : DialogView :=
  mkDialogView
    (1 <? Z.of_nat (List.length (versions s)))
    (compareMode s && (Z.of_nat (List.length (selectedVersions s)) =? 2))
    (match error s with
     | Some msg => if truthy msg then Some msg else None
     | None => None
     end)
    (if loading s then LoadingBody
     else if Z.of_nat (List.length (versions s)) =? 0 then NoVersionsBody
     else ListBody (List.map (render_item p s) (versions s))).

Definition render_menu (s : State) : MenuView :=
  mkMenuView
    (match selectedVersionForMenu s with
     | Some v => isCurrentVersion v
     | None => false
     end).

(** The component function: [None] is [return null]. *)
Definition render (p : Props) (s : State) : option View :=
  if negb (hasMultipleVersions p) && (totalVersions p <=? 1) then None
  else
    Some (mkView (disabled p)
                 (currentVersion p, totalVersions p)
                 (if dialogOpen s then Some (render_dialog p s) else None)
                 (match menuAnchorEl s with
                  | Some _ => Some (render_menu s)
                  | None => None
                  end)).

(** *** User interaction *)

(** What the user can do to the rendered component. A row is named by its
    index in the list. *)
Inductive UIEvent :=
| ClickPrevious
| ClickNext
| ClickViewAll
| CloseDialog
| ClickCompare
| ClickCompareSelected
| ClickVersionRow (index : nat)
| ClickRowMenu (index : nat) (target : HTMLElement)
| CloseMenu
| ClickCopyContent
| ClickSwitchToThisVersion
| ClickDeleteVersion.

Section Dispatch.

Context {E : Type} {env : Environment E}.

Definition nothing : Handler E unit := ret tt.

(** The rows of the list, when the list is what the dialog shows. *)
Definition rows (v : View) : list ItemView :=
  match dialog v with
  | Some d =>
      match dialog_body d with
      | ListBody items => items
      | _ => []
      end
  | None => []
  end.

(** The [onClick] of a row of the list. *)
Definition onClickRow (version : ChatVersion) : Handler E unit :=
  s <- state ;;
  if compareMode s then handleVersionToggleForCompare (versionNumber version)
  else handleVersionSelect (versionNumber version).

(** The [onClick] of the menu items. *)
Definition onClickCopyContent : Handler E unit :=
  s <- state ;;
  match selectedVersionForMenu s with
  | Some v => handleCopyVersion (content v)
  | None => nothing
  end.

Definition onClickSwitchToThisVersion : Handler E unit :=
  s <- state ;;
  match selectedVersionForMenu s with
  | Some v => handleVersionSelect (versionNumber v)
  | None => nothing
  end.

Definition onClickDeleteVersion : Handler E unit :=
  s <- state ;;
  match selectedVersionForMenu s with
  | Some v => handleDeleteVersion (versionNumber v)
  | None => nothing
  end.

(** What an interaction with the rendered view [v] runs: the handler of the
    element it acts on when that element is there and enabled, otherwise
    nothing. *)
Definition reaction (v : View) (ev : UIEvent) : Handler E unit :=
  match ev with
  | ClickPrevious =>
      if controls_disabled v then nothing else handlePreviousVersion
  | ClickNext =>
      if controls_disabled v then nothing else handleNextVersion
  | ClickViewAll =>
      if controls_disabled v then nothing else handleOpenDialog
  | CloseDialog =>
      match dialog v with
      | Some _ => setDialogOpen false
      | None => nothing
      end
  | ClickCompare =>
      match dialog v with
      | Some d => if compare_button d then toggleCompareMode else nothing
      | None => nothing
      end
  | ClickCompareSelected =>
      match dialog v with
      | Some d =>
          if compare_selected_button d then handleCompareVersions else nothing
      | None => nothing
      end
  | ClickVersionRow i =>
      match nth_error (rows v) i with
      | Some item => onClickRow (item_version item)
      | None => nothing
      end
  | ClickRowMenu i target =>
      match nth_error (rows v) i with
      | Some item => handleMenuOpen target (item_version item)
      | None => nothing
      end
  | CloseMenu =>
      match menu v with
      | Some _ => handleMenuClose
      | None => nothing
      end
  | ClickCopyContent =>
      match menu v with
      | Some _ => onClickCopyContent
      | None => nothing
      end
  | ClickSwitchToThisVersion =>
      match menu v with
      | Some _ => onClickSwitchToThisVersion
      | None => nothing
      end
  | ClickDeleteVersion =>
      match menu v with
      | Some m =>
          if delete_item_disabled m then nothing else onClickDeleteVersion
      | None => nothing
      end
  end.

(** An interaction acts on what is rendered; on a component that rendered
    nothing there is nothing to act on. *)
Definition dispatch (ev : UIEvent) : Handler E unit :=
  p <- props ;;
  s <- state ;;
  match render p s with
  | None => nothing
  | Some v => reaction v ev
  end.

End Dispatch.

(** *** The host *)

(** The host adopts the versions it is asked for: after a handler, the next
    render has as [currentVersion] the last version reported through
    [onVersionChange], if any. *)
Fixpoint adopt (current : Z) (log : list Event) : Z :=
  match log with
  | [] => current
  | HostOnVersionChange n :: rest => adopt n rest
  | _ :: rest => adopt current rest
  end.

Definition with_currentVersion (n : Z) (p : Props) : Props :=
  mkProps (chatId p) (role p) n (totalVersions p) (hasMultipleVersions p) (disabled p).

(** One interaction followed by the host's re-render: the handler runs on a
    cleared log, the host adopts what it reported. *)
Definition interact {E : Type} (h : Handler E unit) (w : World Props State E)
  : World Props State E :=
  let w' := exec h (mkWorld (w_props w) (w_state w) (w_env w) []) in
  mkWorld (with_currentVersion (adopt (currentVersion (w_props w)) (w_log w')) (w_props w))
          (w_state w') (w_env w') (w_log w ++ w_log w').

(** [n] interactions with the same handler. *)
Fixpoint repeat_interact {E : Type} (n : nat) (h : Handler E unit)
         (w : World Props State E) : World Props State E :=
  match n with
  | O => w
  | S k => repeat_interact k h (interact h w)
  end.

(** The worlds the component can be in: mounted in its initial state under
    any props and environment, then any sequence of user interactions, host
    re-renders with new props, and changes of the environment. *)
Inductive reachable {E : Type} {env : Environment E} : World Props State E -> Prop :=
| reach_mount (p : Props) (e : E) :
    reachable (mkWorld p initial e [])
| reach_dispatch (w : World Props State E) (ev : UIEvent) :
    reachable w -> reachable (exec (dispatch ev) w)
| reach_props (w : World Props State E) (p : Props) :
    reachable w -> reachable (mkWorld p (w_state w) (w_env w) (w_log w))
| reach_env (w : World Props State E) (e : E) :
    reachable w -> reachable (mkWorld (w_props w) (w_state w) e (w_log w)).

(** Compare mode and its selection, the part of the state only the compare
    controls write. *)
Definition comparison {E : Type} (w : World Props State E) : bool * list Z :=
  (compareMode (w_state w), selectedVersions (w_state w)).

(** The selection of compare mode holds at most two versions, each once. *)
Definition selection_ok (l : list Z) : Prop :=
  (List.length l <= 2)%nat /\ NoDup l.

(** What a click does to the selection of compare mode. *)
Definition toggled (n : Z) (l : list Z) : list Z :=
  if includes l n then filter (fun v => negb (v =? n)) l
  else if Z.of_nat (List.length l) <? 2 then l ++ [n]
  else l.

(** What the menu and compare mode keep: the menu is anchored exactly when a
    version is selected for it, and outside compare mode nothing is
    selected. *)
Definition coherent (s : State) : Prop :=
  (menuAnchorEl s = None <-> selectedVersionForMenu s = None)
  /\ (compareMode s = false -> selectedVersions s = []).

(** The cells the code after an [await] writes: [versions], [dialogOpen],
    [loading] and [error] ([setVersions], [setDialogOpen], [setLoading] and
    [setError] in [loadVersions], [handleVersionSelect], [handleDeleteVersion]
    and [handleCompareVersions]). *)
Definition settle_cells (vs : list ChatVersion) (d l : bool) (e : option jsstring)
           (s : State) : State :=
  mkState vs d l e (menuAnchorEl s) (selectedVersionForMenu s) (compareMode s)
          (selectedVersions s).

(** The worlds the component can be in when awaited calls may still be
    pending between interactions: besides the steps of [reachable], the part
    of a handler before or after an [await] may have run on its own, which
    writes the cells of [settle_cells] in any way, logs calls, or closes the
    menu ([handleMenuClose] at the end of [handleDeleteVersion] and
    [handleCopyVersion]). *)
Inductive reachable_pending {E : Type} {env : Environment E}
  : World Props State E -> Prop :=
| pending_mount (p : Props) (e : E) :
    reachable_pending (mkWorld p initial e [])
| pending_dispatch (w : World Props State E) (ev : UIEvent) :
    reachable_pending w -> reachable_pending (exec (dispatch ev) w)
| pending_props (w : World Props State E) (p : Props) :
    reachable_pending w -> reachable_pending (mkWorld p (w_state w) (w_env w) (w_log w))
| pending_env (w : World Props State E) (e : E) :
    reachable_pending w -> reachable_pending (mkWorld (w_props w) (w_state w) e (w_log w))
| pending_log (w : World Props State E) (l : list Event) :
    reachable_pending w ->
    reachable_pending (mkWorld (w_props w) (w_state w) (w_env w) (w_log w ++ l))
| pending_settle (w : World Props State E) (vs : list ChatVersion) (d l : bool)
                 (e : option jsstring) :
    reachable_pending w ->
    reachable_pending (mkWorld (w_props w) (settle_cells vs d l e (w_state w))
                               (w_env w) (w_log w))
| pending_menu_close (w : World Props State E) :
    reachable_pending w -> reachable_pending (exec handleMenuClose w).

End Navigator.

(* ================================================================== *)
(** ** VersionNavigator, the revision over the host's [onLoadVersions] *)
(* ================================================================== *)

Module NavigatorV1.

(** [VersionNavigatorProps] *)
Record Props := mkProps {
  chatId : jsstring;
  currentVersion : Z;
  totalVersions : Z;
  hasMultipleVersions : bool;
  disabled : bool
}.

Record State := mkState {
  versions : list ChatVersion;
  dialogOpen : bool;
  loading : bool
}.

Definition initial : State := mkState [] false false.

Definition Handler (E : Type) := M Props State E.

Section Handlers.

Context {E : Type} {env : Environment E}.

Definition setVersions (v : list ChatVersion) : Handler E unit :=
  modify (fun s => mkState v (dialogOpen s) (loading s)).
Definition setDialogOpen (b : bool) : Handler E unit :=
  modify (fun s => mkState (versions s) b (loading s)).
Definition setLoading (b : bool) : Handler E unit :=
  modify (fun s => mkState (versions s) (dialogOpen s) b).

Definition onVersionChange (n : Z) : Handler E unit :=
  emit (HostOnVersionChange n).

Definition loadVersions : Handler E unit :=
  p <- props ;;
  if negb (truthy (chatId p)) then ret tt
  else
    try_catch_finally
      (setLoading true ;;
       versionData <- call (CallOnLoadVersions (chatId p)) (onLoadVersions (chatId p)) ;;
       setVersions versionData)
      (fun _ => emit (ConsoleError (js "Failed to load versions:")))
      (setLoading false).

Definition handlePreviousVersion : Handler E unit :=
  p <- props ;;
  if 1 <? currentVersion p then onVersionChange (currentVersion p - 1)
  else onVersionChange (totalVersions p).

Definition handleNextVersion : Handler E unit :=
  p <- props ;;
  if currentVersion p <? totalVersions p then onVersionChange (currentVersion p + 1)
  else onVersionChange 1.

Definition handleVersionSelect (n : Z) : Handler E unit :=
  onVersionChange n ;;
  setDialogOpen false.

Definition handleOpenDialog : Handler E unit :=
  setDialogOpen true ;;
  loadVersions.

End Handlers.

(** What this revision renders of the control: the early [return null] is
    commented out, so there is always a control. *)
Record View := mkView {
  controls_disabled : bool;
  label : Z * Z;
  dialog_shown : bool
}.

Definition render (p : Props) (s : State) : option View :=
  Some (mkView (disabled p) (currentVersion p, totalVersions p) (dialogOpen s)).

End NavigatorV1.

(* ================================================================== *)
(** ** Message editing: MessageEditor inside ChatMessage *)
(* ================================================================== *)

Module Editing.

(** The message bubble and its editor. [ChatMessage] owns [isEditing] and
    hands the editor [initialContent = message.content],
    [onSaveEdit = handleSaveEdit], [canEdit = true] and
    [disabled = loading]; [MessageEditor] owns the draft. *)
Record Editor := mkEditor {
  (* ChatMessage props *)
  message_content : jsstring;
  onEditMessage_given : bool;
  message_loading : bool;
  (* ChatMessage state *)
  isEditing : bool;
  (* MessageEditor state *)
  editedContent : jsstring;
  hasChanges : bool;
  (* the calls of the host's [onEditMessage], oldest first *)
  edit_calls : list jsstring
}.

Definition setIsEditing (b : bool) (w : Editor) : Editor :=
  mkEditor (message_content w) (onEditMessage_given w) (message_loading w) b
           (editedContent w) (hasChanges w) (edit_calls w).
Definition setEditedContent (s : jsstring) (w : Editor) : Editor :=
  mkEditor (message_content w) (onEditMessage_given w) (message_loading w) (isEditing w)
           s (hasChanges w) (edit_calls w).
Definition setHasChanges (b : bool) (w : Editor) : Editor :=
  mkEditor (message_content w) (onEditMessage_given w) (message_loading w) (isEditing w)
           (editedContent w) b (edit_calls w).
Definition onEditMessage (s : jsstring) (w : Editor) : Editor :=
  mkEditor (message_content w) (onEditMessage_given w) (message_loading w) (isEditing w)
           (editedContent w) (hasChanges w) (edit_calls w ++ [s]).

(** *** ChatMessage *)

Definition handleStartEdit (w : Editor) : Editor := setIsEditing true w.

Definition handleSaveEdit (text : jsstring) (w : Editor) : Editor :=
  let w1 :=
    if onEditMessage_given w && negb (strict_eq text (message_content w))
       && truthy (trim text)
    then onEditMessage text w
    else w in
  setIsEditing false w1.

Definition handleCancelEdit (w : Editor) : Editor := setIsEditing false w.

(** *** MessageEditor *)

(** The two [useEffect]s of one commit. [prev] is the previous render and
    [cur] the one being committed; an effect runs when one of its
    dependencies differs, reads the values of [cur], and its setters are
    applied in order. *)
Definition effects (prev cur : Editor) : Editor :=
  let initial_changed := negb (strict_eq (message_content prev) (message_content cur)) in
  let editing_changed := negb (Bool.eqb (isEditing prev) (isEditing cur)) in
  let edited_changed := negb (strict_eq (editedContent prev) (editedContent cur)) in
  let w1 :=
    if initial_changed || editing_changed
    then setHasChanges false (setEditedContent (message_content cur) cur)
    else cur in
  if edited_changed || initial_changed
  then setHasChanges (negb (strict_eq (editedContent cur) (message_content cur))) w1
  else w1.

(** Renders and effects after an update, until nothing changes. *)
Definition settle (prev cur : Editor) : Editor :=
  let w1 := effects prev cur in
  let w2 := effects cur w1 in
  effects w1 w2.

Definition handleSave (w : Editor) : Editor :=
  if truthy (trim (editedContent w)) && hasChanges w
  then handleSaveEdit (trim (editedContent w)) w
  else w.

Definition handleCancel (w : Editor) : Editor :=
  handleCancelEdit (setHasChanges false (setEditedContent (message_content w) w)).

(** The edit button is there when not editing, [canEdit] (always [true]
    here) and not [disabled]. *)
Definition startEdit (w : Editor) : Editor :=
  if negb (isEditing w) && negb (message_loading w)
  then settle w (handleStartEdit w)
  else w.

(** The user replaces the text of the field by [draft]. *)
Definition type_draft (draft : jsstring) (w : Editor) : Editor :=
  if isEditing w then settle w (setEditedContent draft w) else w.

(** The user saves (the Save button or Ctrl+Enter). *)
Definition press_save (w : Editor) : Editor :=
  if isEditing w then settle w (handleSave w) else w.

(** The user cancels (the Cancel button or Escape). *)
Definition press_cancel (w : Editor) : Editor :=
  if isEditing w then settle w (handleCancel w) else w.

(** [saveEdit(draft)]: the field holds [draft] and the user saves. *)
Definition saveEdit (draft : jsstring) (w : Editor) : Editor :=
  press_save (type_draft draft w).

(** A mounted bubble that entered edit mode. *)
Definition editing (content : jsstring) (given : bool) : Editor :=
  startEdit (mkEditor content given false false content false []).

(** The renders are settled: the draft flag agrees with the draft. *)
Definition settled (w : Editor) : Prop :=
  hasChanges w = negb (strict_eq (editedContent w) (message_content w)).

(** *** The rest of MessageEditor *)

(** The part of a keyboard event [handleKeyDown] reads. *)
Record KeyEvent := mkKeyEvent {
  key : jsstring;
  ctrlKey : bool;
  metaKey : bool
}.

(** [handleKeyDown]: whether [preventDefault] was called, and the state. *)
Definition handleKeyDown (ev : KeyEvent) (w : Editor) : bool * Editor :=
  if strict_eq (key ev) (js "Enter") && (ctrlKey ev || metaKey ev)
  then (true, handleSave w)
  else if strict_eq (key ev) (js "Escape")
  then (true, handleCancel w)
  else (false, w).

(** A key pressed in the text field. *)
Definition press_key (ev : KeyEvent) (w : Editor) : Editor :=
  if isEditing w then settle w (snd (handleKeyDown ev w)) else w.

(** [disabled] of the Save button. *)
Definition save_button_disabled (w : Editor) : bool :=
  negb (truthy (trim (editedContent w))) || negb (hasChanges w).

(** A click on the Save button: nothing when it is disabled. *)
Definition click_save (w : Editor) : Editor :=
  if isEditing w && negb (save_button_disabled w) then settle w (handleSave w) else w.

(** Whether the edit button is rendered ([canEdit] is [true] here). *)
Definition edit_button_shown (w : Editor) : bool :=
  negb (isEditing w) && (true && negb (message_loading w)).

(** What the user can do to the editor. *)
Inductive Action :=
| StartEdit
| TypeDraft (draft : jsstring)
| PressKey (ev : KeyEvent)
| ClickSave
| ClickCancel.

Definition act (a : Action) (w : Editor) : Editor :=
  match a with
  | StartEdit => startEdit w
  | TypeDraft draft => type_draft draft w
  | PressKey ev => press_key ev w
  | ClickSave => click_save w
  | ClickCancel => press_cancel w
  end.

(** A sequence of actions, first to last. *)
Definition act_all (l : list Action) (w : Editor) : Editor :=
  fold_left (fun w a => act a w) l w.

(** A freshly mounted bubble. *)
Definition fresh (text : jsstring) (given loading : bool) : Editor :=
  mkEditor text given loading false text false [].

(** A text worth sending to the host for the message [original]: not empty,
    already trimmed, and not the message itself. *)
Definition clean (original t : jsstring) : Prop :=
  t <> [] /\ trim t = t /\ t <> original.

(** What holds of the editor of a bubble mounted on [text] with the given
    capabilities, after any actions. *)
Definition well_kept (text : jsstring) (given loading : bool) (w : Editor) : Prop :=
  settled w
  /\ message_content w = text
  /\ onEditMessage_given w = given
  /\ message_loading w = loading
  /\ Forall (clean text) (edit_calls w)
  /\ (given = false -> edit_calls w = [])
  /\ (loading = true -> isEditing w = false /\ edit_calls w = []).

End Editing.

(* ================================================================== *)
(** ** ChatMessage, the revision with the editor inline *)
(* ================================================================== *)

Module InlineEdit.

(** The bubble of [ChatMessage.tsx]: the message and capabilities it is given,
    its [isEditing] and [editedContent] cells, and the calls of the host's
    [onEditMessage]. *)
Record Bubble := mkBubble {
  (* props *)
  message_content : jsstring;
  message_isUser : bool;
  message_editInfo_canEdit : bool;
  canEdit : bool;
  onEditMessage_given : bool;
  (* state *)
  isEditing : bool;
  editedContent : jsstring;
  menuAnchorEl : option HTMLElement;
  (* the calls of [onEditMessage], oldest first *)
  edit_calls : list jsstring
}.

Definition setIsEditing (b : bool) (w : Bubble) : Bubble :=
  mkBubble (message_content w) (message_isUser w) (message_editInfo_canEdit w)
           (canEdit w) (onEditMessage_given w) b (editedContent w)
           (menuAnchorEl w) (edit_calls w).
Definition setEditedContent (s : jsstring) (w : Bubble) : Bubble :=
  mkBubble (message_content w) (message_isUser w) (message_editInfo_canEdit w)
           (canEdit w) (onEditMessage_given w) (isEditing w) s
           (menuAnchorEl w) (edit_calls w).
Definition setMenuAnchorEl (a : option HTMLElement) (w : Bubble) : Bubble :=
  mkBubble (message_content w) (message_isUser w) (message_editInfo_canEdit w)
           (canEdit w) (onEditMessage_given w) (isEditing w) (editedContent w)
           a (edit_calls w).
Definition onEditMessage (s : jsstring) (w : Bubble) : Bubble :=
  mkBubble (message_content w) (message_isUser w) (message_editInfo_canEdit w)
           (canEdit w) (onEditMessage_given w) (isEditing w) (editedContent w)
           (menuAnchorEl w) (edit_calls w ++ [s]).

Definition handleEdit (w : Bubble) : Bubble :=
  setMenuAnchorEl None (setEditedContent (message_content w) (setIsEditing true w)).

Definition handleSave (w : Bubble) : Bubble :=
  let w1 :=
    if onEditMessage_given w && negb (strict_eq (editedContent w) (message_content w))
    then onEditMessage (editedContent w) w
    else w in
  setIsEditing false w1.

Definition handleCancel (w : Bubble) : Bubble :=
  setEditedContent (message_content w) (setIsEditing false w).

Definition handleMenuOpen (target : HTMLElement) (w : Bubble) : Bubble :=
  setMenuAnchorEl (Some target) w.

Definition handleMenuClose (w : Bubble) : Bubble :=
  setMenuAnchorEl None w.

(** The edit button: among the action buttons, shown when not editing, for
    a user message the host and the message both allow to edit. *)
Definition edit_button_shown (w : Bubble) : bool :=
  negb (isEditing w)
  && (canEdit w && message_editInfo_canEdit w && message_isUser w).

(** [disabled] of the Save & Generate button. *)
Definition save_button_disabled (w : Bubble) : bool :=
  negb (truthy (trim (editedContent w))).

Definition click_edit (w : Bubble) : Bubble :=
  if edit_button_shown w then handleEdit w else w.

Definition type_draft (draft : jsstring) (w : Bubble) : Bubble :=
  if isEditing w then setEditedContent draft w else w.

Definition click_save (w : Bubble) : Bubble :=
  if isEditing w && negb (save_button_disabled w) then handleSave w else w.

Definition click_cancel (w : Bubble) : Bubble :=
  if isEditing w then handleCancel w else w.

End InlineEdit.

(* ================================================================== *)
(** ** ChatMessage, the revision hosting MessageEditor and VersionNavigator *)
(* ================================================================== *)

Module Bubble.

(** The fields of [message] the bubble reads for copying and for the
    navigator. A number the message may lack is optional. *)
Record Message := mkMessage {
  chatId : jsstring;
  content : jsstring;
  versionNumber : option Z;
  totalVersions : option Z;
  hasMultipleVersions : bool
}.

Record Props := mkProps {
  message : Message;
  loading : bool;
  onSwitchVersion_given : bool
}.

(** The [copied] cell, and the [setTimeout] callbacks not yet run. The
    [isEditing] cell is the one of [Editing]. *)
Record State := mkState {
  copied : bool;
  pending_resets : nat
}.

Definition initial : State := mkState false 0.

(** [n || 1] on a number that may be missing: [undefined] and [0] are falsy. *)
Definition or_one (n : option Z) : Z :=
  match n with
  | Some v => if v =? 0 then 1 else v
  | None => 1
  end.

Definition Handler (E : Type) := M Props State E.

Section Handlers.

Context {E : Type} {env : Environment E}.

Definition setCopied (b : bool) : Handler E unit :=
  modify (fun s => mkState b (pending_resets s)).

(** [setTimeout(() => setCopied(false), 2000)] *)
Definition setTimeout_reset : Handler E unit :=
  modify (fun s => mkState (copied s) (S (pending_resets s))).

Definition copyToClipboard : Handler E unit :=
  p <- props ;;
  try_catch
    (call (CallClipboardWriteText (content (message p)))
          (clipboardWriteText (content (message p))) ;;
     setCopied true ;;
     setTimeout_reset)
    (fun _ => emit (ConsoleError (js "Failed to copy text:"))).

(** A timer set by [copyToClipboard] runs its callback. *)
Definition timer_fires : Handler E unit :=
  s <- state ;;
  match pending_resets s with
  | O => ret tt
  | S k => modify (fun _ => mkState false k)
  end.

End Handlers.

(** [handleVersionChange]: the calls of [onSwitchVersion] it makes. *)
Definition handleVersionChange (given : bool) (n : Z) : list Z :=
  if given then [n] else [].

(** The props the bubble hands to [VersionNavigator]. *)
Definition navigator_props (p : Props) : NavigatorV1.Props :=
  NavigatorV1.mkProps (chatId (message p))
                      (or_one (versionNumber (message p)))
                      (or_one (totalVersions (message p)))
                      (hasMultipleVersions (message p))
                      (loading p).

(** What reaches [onSwitchVersion] of what a navigator handler logged. *)
Definition forwarded (given : bool) (log : list Event) : list Z :=
  flat_map (fun ev =>
              match ev with
              | HostOnVersionChange n => handleVersionChange given n
              | _ => []
              end) log.

(** What can happen to the copy button. *)
Inductive Step :=
| ClickCopy
| TimerFires.

Definition step {E : Type} {env : Environment E} (st : Step) : Handler E unit :=
  match st with
  | ClickCopy => copyToClipboard
  | TimerFires => timer_fires
  end.

Inductive reachable {E : Type} {env : Environment E} : World Props State E -> Prop :=
| reach_mount (p : Props) (e : E) :
    reachable (mkWorld p initial e [])
| reach_step (w : World Props State E) (st : Step) :
    reachable w -> reachable (exec (step st) w)
| reach_props (w : World Props State E) (p : Props) :
    reachable w -> reachable (mkWorld p (w_state w) (w_env w) (w_log w))
| reach_env (w : World Props State E) (e : E) :
    reachable w -> reachable (mkWorld (w_props w) (w_state w) e (w_log w)).

End Bubble.

(* ================================================================== *)
(** ** A scripted environment *)
(* ================================================================== *)

(** A test double for the collaborators: each call consumes one entry of a
    script, [true] for a call that returns and [false] for one that throws;
    past the end of the script every call returns. Listing returns the stored
    versions. *)
Module Scripted.

Record Env := mkEnv {
  script : list bool;
  stored : list ChatVersion
}.

Definition network_error : JsError := mkJsError (Some (js "Network Error")).

Definition answer {A} (a : A) (e : Env) : outcome A * Env :=
  match script e with
  | false :: rest => (Thrown network_error, mkEnv rest (stored e))
  | true :: rest => (Returned a, mkEnv rest (stored e))
  | [] => (Returned a, e)
  end.

#[export] Instance environment : Environment Env := {
  getChatVersions _ _ _ e := answer (stored e) e;
  switchToVersion _ _ _ e := answer tt e;
  deleteVersion _ _ _ e := answer tt e;
  compareVersions _ _ _ _ e := answer tt e;
  onLoadVersions _ e := answer (stored e) e;
  clipboardWriteText _ e := answer tt e
}.

Definition version (n : Z) (current : bool) (text : string) : ChatVersion :=
  mkChatVersion (js "v") n current (js text) (js text) (js "2025-01-01T00:00:00Z") 1
                (Z.of_nat (String.length text)).

(** Three versions, the second one current. *)
Definition three : list ChatVersion :=
  [version 1 false "first"; version 2 true "second"; version 3 false "third"].

End Scripted.

(* ================================================================== *)
(** ** Scenarios *)
(* ================================================================== *)

Module Scenario.

Import Navigator Scripted.

(** A message with three versions shown at version [current]. *)
Definition shown (current : Z) : Props :=
  mkProps (js "chat-1") user current 3 true false.

Definition mounted (current : Z) (script : list bool)
  : World Props State Env :=
  mkWorld (shown current) initial (mkEnv script three) [].

(** The browser is open on the three versions. *)
Definition browsing (current : Z) (script : list bool)
  : World Props State Env :=
  mkWorld (shown current)
          (mkState three true false None None None false [])
          (mkEnv script three) [].

(** The same in compare mode with [selected] picked. *)
Definition comparing (selected : list Z) : World Props State Env :=
  mkWorld (shown 2)
          (mkState three true false None None None true selected)
          (mkEnv [] three) [].

(** The user opens the browser at version [2], opens the menu of the row of
    version [3], and switches to it from the menu. The dialog closes, the
    menu stays on the row as it was loaded, the host adopts version [3]. *)
Definition menu_opened : World Props State Env :=
  exec (dispatch (ClickRowMenu 2 0%nat)) (exec (dispatch ClickViewAll) (mounted 2 [])).

Definition switched_from_menu : World Props State Env :=
  let w := exec (dispatch ClickSwitchToThisVersion) menu_opened in
  mkWorld (with_currentVersion 3 (w_props w)) (w_state w) (w_env w) (w_log w).

(** The browser after the user entered compare mode and picked the rows of
    versions [1] and [2]. *)
Definition two_picked : World Props State Env :=
  exec (dispatch (ClickVersionRow 1))
       (exec (dispatch (ClickVersionRow 0))
             (exec (dispatch ClickCompare)
                   (exec (dispatch ClickViewAll) (mounted 2 [])))).

(** The menu opened on the row of version [2], the one flagged current. *)
Definition menu_on_current : World Props State Env :=
  exec (dispatch (ClickRowMenu 1 0%nat)) (exec (dispatch ClickViewAll) (mounted 2 [])).

(** A control mounted without a [chatId], with a list loaded earlier. *)
Definition no_chat : World Props State Env :=
  mkWorld (mkProps [] user 2 3 true false)
          (mkState three true false (Some (js "stale")) None None false [])
          (mkEnv [] three) [].

Definition no_chat_v1 : World NavigatorV1.Props NavigatorV1.State Env :=
  mkWorld (NavigatorV1.mkProps [] 2 3 true false)
          (NavigatorV1.mkState three true false)
          (mkEnv [] three) [].

(** A single-version message in the earlier revision. *)
Definition single_v1 : NavigatorV1.Props :=
  NavigatorV1.mkProps (js "chat-1") 1 1 false false.

(** The editor open on the message [hello]. *)
Definition editing_hello : Editing.Editor :=
  Editing.editing (js "hello") true.

(** The menu open on the row of version [3] while a refresh is pending:
    [loading] is set and the dialog body shows the loading text. *)
Definition menu_opened_loading : World Props State Env :=
  mkWorld (w_props menu_opened)
          (settle_cells three true true None (w_state menu_opened))
          (w_env menu_opened) (w_log menu_opened).

(** A disabled control with the dialog and the menu closed. *)
Definition idle_disabled : World Props State Env :=
  mkWorld (mkProps (js "chat-1") user 2 3 true true) initial (mkEnv [] three) [].

(** The menu opened on the row of version [3], before a store that will
    reject the next call. *)
Definition menu_opened_failing : World Props State Env :=
  mkWorld (w_props menu_opened) (w_state menu_opened) (mkEnv [false] three)
          (w_log menu_opened).

(** The earlier revision with the dialog open on a list loaded before. *)
Definition browsing_v1 (script : list bool)
  : World NavigatorV1.Props NavigatorV1.State Env :=
  mkWorld (NavigatorV1.mkProps (js "chat-1") 2 3 true false)
          (NavigatorV1.mkState [version 1 true "first"] true false)
          (mkEnv script three) [].

(** The bubble of the inline revision, open on the user message [hello]. *)
Definition inline_hello : InlineEdit.Bubble :=
  InlineEdit.click_edit
    (InlineEdit.mkBubble (js "hello") true true true true false (js "hello") None []).

(** A message that carries no version numbers, in a bubble whose host gave
    [onSwitchVersion]. *)
Definition unversioned : Bubble.Props :=
  Bubble.mkProps (Bubble.mkMessage (js "chat-1") (js "hello") None None false)
                 false true.

Definition unversioned_navigator
  : World NavigatorV1.Props NavigatorV1.State Env :=
  mkWorld (Bubble.navigator_props unversioned) NavigatorV1.initial (mkEnv [] three) [].

(** The bubble after two clicks on Copy, the clipboard rejecting the second,
    and one timer run. *)
Definition copied_twice : World Bubble.Props Bubble.State Env :=
  exec (Bubble.step Bubble.TimerFires)
       (exec (Bubble.step Bubble.ClickCopy)
             (exec (Bubble.step Bubble.ClickCopy)
                   (mkWorld unversioned Bubble.initial (mkEnv [true; false] three) []))).

(** A single-version message whose host still says [hasMultipleVersions]. *)
Definition single_flagged : Props :=
  mkProps (js "chat-1") assistant 1 1 true false.

Definition single_plain : Props :=
  mkProps (js "chat-1") assistant 1 1 false false.

End Scenario.

(* ================================================================== *)
(** * Properties *)
(* ================================================================== *)

(** ** Facts about strings *)

Module JsStringFacts.

Lemma strict_eq_spec (a b : jsstring) : strict_eq a b = true <-> a = b.
Proof.
  revert b; induction a as [|x a IH]; intros [|y b]; simpl;
    try (split; [discriminate | congruence]); try tauto.
  rewrite andb_true_iff, N.eqb_eq, IH.
  split; [intros [-> ->]; reflexivity | intros H; inversion H; auto].
Qed.

Lemma strict_eq_refl (a : jsstring) : strict_eq a a = true.
Proof. apply strict_eq_spec; reflexivity. Qed.

Lemma strict_eq_false (a b : jsstring) : strict_eq a b = false <-> a <> b.
Proof.
  rewrite <- strict_eq_spec. destruct (strict_eq a b); split; congruence.
Qed.

Lemma truthy_true (s : jsstring) : truthy s = true <-> s <> [].
Proof. destruct s; simpl; split; congruence. Qed.

Lemma truthy_false (s : jsstring) : truthy s = false <-> s = [].
Proof. destruct s; simpl; split; congruence. Qed.

(** What is left after [trimStart] does not begin with white space. *)
Lemma trimStart_head (s : jsstring) :
  trimStart s = [] \/
  exists c r, trimStart s = c :: r /\ is_white_space c = false.
Proof.
  induction s as [|c r IH]; simpl; [now left|].
  destruct (is_white_space c) eqn:E; [exact IH|].
  right; exists c, r; auto.
Qed.

(** [trimEnd] keeps a first code unit that is not white space. *)
Lemma trimEnd_head (c : N) (r : jsstring) :
  is_white_space c = false -> exists r', trimEnd (c :: r) = c :: r'.
Proof.
  intros E; simpl. destruct (trimEnd r) as [|d r'].
  - rewrite E; eauto.
  - eauto.
Qed.

Lemma trimEnd_idem (s : jsstring) : trimEnd (trimEnd s) = trimEnd s.
Proof.
  induction s as [|c r IH]; simpl; [reflexivity|].
  destruct (trimEnd r) as [|d r'] eqn:E.
  - destruct (is_white_space c) eqn:W; simpl; [reflexivity|].
    now rewrite W.
  - change (trimEnd (c :: d :: r')) with
      (match trimEnd (d :: r') with
       | [] => if is_white_space c then [] else [c]
       | x => c :: x
       end).
    now rewrite IH.
Qed.

Lemma trimStart_trim (s : jsstring) : trimStart (trim s) = trim s.
Proof.
  unfold trim. destruct (trimStart_head s) as [-> | (c & r & -> & W)].
  - reflexivity.
  - destruct (@trimEnd_head c r W) as [r' ->]. simpl. now rewrite W.
Qed.

(** [trim] is idempotent: [s.trim().trim() === s.trim()]. *)
Lemma trim_idem (s : jsstring) : trim (trim s) = trim s.
Proof.
  unfold trim at 1. rewrite trimStart_trim. unfold trim. apply trimEnd_idem.
Qed.

(** Trimming again does not change whether a trimmed string is empty. *)
Lemma truthy_trim_trim (s : jsstring) : truthy (trim (trim s)) = truthy (trim s).
Proof. now rewrite trim_idem. Qed.

End JsStringFacts.
Import JsStringFacts.

(** ** The version controller *)

Module NavigatorFacts.

Import Navigator.

Section WithEnvironment.

Context {E : Type} {env : Environment E}.

Implicit Types (w : World Props State E) (n : Z).

(** A handler that only reports a version to the host. *)
Lemma exec_onVersionChange w n :
  exec (onVersionChange n) w
  = mkWorld (w_props w) (w_state w) (w_env w) (w_log w ++ [HostOnVersionChange n]).
Proof. reflexivity. Qed.

Lemma handlePreviousVersion_spec w :
  handlePreviousVersion w
  = onVersionChange (if 1 <? currentVersion (w_props w)
                     then currentVersion (w_props w) - 1
                     else totalVersions (w_props w)) w.
Proof.
  unfold handlePreviousVersion, bind, props.
  now destruct (1 <? currentVersion (w_props w)).
Qed.

Lemma handleNextVersion_spec w :
  handleNextVersion w
  = onVersionChange (if currentVersion (w_props w) <? totalVersions (w_props w)
                     then currentVersion (w_props w) + 1
                     else 1) w.
Proof.
  unfold handleNextVersion, bind, props.
  now destruct (currentVersion (w_props w) <? totalVersions (w_props w)).
Qed.

(** The host's next render after [stepNext()]. *)
Lemma interact_handleNextVersion w :
  w_props (interact handleNextVersion w)
  = with_currentVersion
      (if currentVersion (w_props w) <? totalVersions (w_props w)
       then currentVersion (w_props w) + 1
       else 1) (w_props w).
Proof.
  unfold interact, exec. rewrite handleNextVersion_spec. reflexivity.
Qed.

(** [k] steps forward from version [c] stay below the last version as long
    as [c + k] does. *)
Lemma repeat_next_below (k : nat) : forall w,
  currentVersion (w_props w) + Z.of_nat k <= totalVersions (w_props w) ->
  currentVersion (w_props (repeat_interact k handleNextVersion w))
  = currentVersion (w_props w) + Z.of_nat k
  /\ totalVersions (w_props (repeat_interact k handleNextVersion w))
     = totalVersions (w_props w).
Proof.
  induction k as [|k IH]; intros w H.
  - simpl. split; [lia | reflexivity].
  - cbn [repeat_interact].
    assert (Hp := interact_handleNextVersion w).
    assert (Hlt : (currentVersion (w_props w) <? totalVersions (w_props w)) = true)
      by (apply Z.ltb_lt; lia).
    rewrite Hlt in Hp.
    destruct (IH (interact handleNextVersion w)) as [Hc Ht].
    + rewrite Hp. simpl. lia.
    + rewrite Hc, Ht, Hp. simpl. split; [lia | reflexivity].
Qed.

(** *** C10 *)

(** C10. With an empty (falsy) [chatId], [refresh()] ([loadVersions]) returns
    at once, in both revisions of the component: the handler returns normally
    and leaves the whole world as it was, so no list call is logged and
    [versions], [loading] and [error] are unchanged. *)
Theorem refresh_without_chatId w (v : World NavigatorV1.Props NavigatorV1.State E) :
  (truthy (chatId (w_props w)) = false ->
   loadVersions w = (Returned tt, w)
   /\ count_events is_list_call (w_log (exec loadVersions w))
      = count_events is_list_call (w_log w)
   /\ versions (w_state (exec loadVersions w)) = versions (w_state w)
   /\ loading (w_state (exec loadVersions w)) = loading (w_state w)
   /\ error (w_state (exec loadVersions w)) = error (w_state w))
  /\
  (truthy (NavigatorV1.chatId (w_props v)) = false ->
   NavigatorV1.loadVersions v = (Returned tt, v)).
Proof.
  split; intros H.
  - assert (Heq : loadVersions w = (Returned tt, w)).
    { unfold loadVersions, bind, props. rewrite H. reflexivity. }
    unfold exec. rewrite Heq. repeat split; reflexivity.
  - unfold NavigatorV1.loadVersions, bind, props. rewrite H. reflexivity.
Qed.

(** *** C2 *)

(** C2, as the code has it. The control is absent ([return null]) exactly
    when the host does not flag several versions and [totalVersions <= 1];
    in particular it is absent for every such input, whatever the state. *)
Theorem control_absent_iff (p : Props) (s : State) :
  render p s = None <-> hasMultipleVersions p = false /\ totalVersions p <= 1.
Proof.
  unfold render.
  destruct (hasMultipleVersions p); simpl.
  - split; [discriminate | intros [? _]; discriminate].
  - destruct (Z.leb_spec (totalVersions p) 1).
    + split; auto.
    + split; [discriminate | intros [_ ?]; lia].
Qed.

(** *** C6 *)

(** C6. For [1 <= currentVersion <= totalVersions], [stepPrevious()] reports
    [currentVersion - 1] to the host when [currentVersion > 1] and
    [totalVersions] at version 1; [stepNext()] reports [currentVersion + 1]
    below [totalVersions] and [1] at [totalVersions]. Each handler returns
    normally, logs this one request and changes nothing else. *)
Theorem step_previous_next w :
  1 <= currentVersion (w_props w) <= totalVersions (w_props w) ->
  let c := currentVersion (w_props w) in
  let t := totalVersions (w_props w) in
  let requested target h :=
    h w = (Returned tt,
           mkWorld (w_props w) (w_state w) (w_env w)
                   (w_log w ++ [HostOnVersionChange target])) in
  (1 < c -> requested (c - 1) handlePreviousVersion)
  /\ (c = 1 -> requested t handlePreviousVersion)
  /\ (c < t -> requested (c + 1) handleNextVersion)
  /\ (c = t -> requested 1 handleNextVersion).
Proof.
  intros Hrange c t requested. subst requested; cbv beta.
  rewrite handlePreviousVersion_spec, handleNextVersion_spec.
  fold c t. repeat split; intros H.
  - destruct (Z.ltb_spec 1 c); [reflexivity | lia].
  - destruct (Z.ltb_spec 1 c); [lia | reflexivity].
  - destruct (Z.ltb_spec c t); [reflexivity | lia].
  - destruct (Z.ltb_spec c t); [lia | reflexivity].
Qed.

(** *** C8 *)

(** C8. For [totalVersions >= 1], starting at version 1 and pressing next
    [totalVersions] times, the host adopting each requested version, the
    control is back at version 1. *)
Theorem next_cycle_closes w :
  1 <= totalVersions (w_props w) ->
  currentVersion (w_props w) = 1 ->
  currentVersion
    (w_props (repeat_interact (Z.to_nat (totalVersions (w_props w)))
                              handleNextVersion w)) = 1.
Proof.
  intros Ht Hc.
  set (t := totalVersions (w_props w)) in *.
  replace (Z.to_nat t) with (Nat.pred (Z.to_nat t) + 1)%nat by lia.
  assert (Hsplit : forall a b w0,
             repeat_interact (a + b) handleNextVersion w0
             = repeat_interact b handleNextVersion
                               (repeat_interact a handleNextVersion w0)).
  { induction a as [|a IH]; intros b w0; simpl; [reflexivity | apply IH]. }
  rewrite Hsplit.
  destruct (@repeat_next_below (Nat.pred (Z.to_nat t)) w) as [Hc' Ht'].
  { fold t. lia. }
  cbn [repeat_interact].
  rewrite interact_handleNextVersion, Hc', Ht'. fold t.
  destruct (Z.ltb_spec (currentVersion (w_props w) + Z.of_nat (Nat.pred (Z.to_nat t))) t);
    [lia | reflexivity].
Qed.

(** *** Running the handlers that call the store *)

Lemma or_else_truthy (a : option jsstring) (b : jsstring) :
  truthy b = true -> truthy (or_else a b) = true.
Proof.
  intros Hb. destruct a as [s|]; simpl; [|exact Hb].
  destruct (truthy s) eqn:Hs; [exact Hs | exact Hb].
Qed.

(** [loadVersions] with a [chatId], by the answer of the store. *)
Lemma loadVersions_spec w :
  truthy (chatId (w_props w)) = true ->
  let p := w_props w in
  let s := w_state w in
  let ev := CallGetChatVersions (chatId p) (role p) 50 in
  loadVersions w
  = match getChatVersions (chatId p) (role p) 50 (w_env w) with
    | (Returned vs, e') =>
        (Returned tt,
         mkWorld p
                 (mkState vs (dialogOpen s) false None (menuAnchorEl s)
                          (selectedVersionForMenu s) (compareMode s)
                          (selectedVersions s))
                 e' (w_log w ++ [ev]))
    | (Thrown err, e') =>
        (Returned tt,
         mkWorld p
                 (mkState (versions s) (dialogOpen s) false
                          (Some (or_else (message err) (js "Failed to load versions")))
                          (menuAnchorEl s) (selectedVersionForMenu s)
                          (compareMode s) (selectedVersions s))
                 e' (w_log w ++ [ev; ConsoleError (js "Failed to load versions:")]))
    end.
Proof.
  intros H p s ev. subst p s ev.
  unfold loadVersions, bind at 1, props. rewrite H. cbn [negb].
  unfold try_catch_finally, try_catch, bind, call, setLoading, setError,
    setVersions, emit, modify. cbn [w_env w_props w_state w_log].
  destruct (getChatVersions (chatId (w_props w)) (role (w_props w)) 50 (w_env w))
    as [[vs|err] e']; cbn; [reflexivity|].
  now rewrite <- app_assoc.
Qed.

(** [handleVersionSelect], by the answer of the store. *)
Lemma handleVersionSelect_spec w n :
  let p := w_props w in
  let s := w_state w in
  let ev := CallSwitchToVersion (chatId p) n (role p) in
  handleVersionSelect n w
  = match switchToVersion (chatId p) n (role p) (w_env w) with
    | (Returned _, e') =>
        (Returned tt,
         mkWorld p
                 (mkState (versions s) false false (error s) (menuAnchorEl s)
                          (selectedVersionForMenu s) (compareMode s)
                          (selectedVersions s))
                 e' (w_log w ++ [ev; HostOnVersionChange n]))
    | (Thrown err, e') =>
        (Returned tt,
         mkWorld p
                 (mkState (versions s) (dialogOpen s) false
                          (Some (or_else (message err) (js "Failed to switch version")))
                          (menuAnchorEl s) (selectedVersionForMenu s)
                          (compareMode s) (selectedVersions s))
                 e' (w_log w ++ [ev]))
    end.
Proof.
  intros p s ev. subst p s ev.
  unfold handleVersionSelect, bind at 1, props.
  unfold try_catch_finally, try_catch, bind, call, setLoading, setError,
    setDialogOpen, onVersionChange, emit, modify.
  cbn [w_env w_props w_state w_log].
  destruct (switchToVersion (chatId (w_props w)) n (role (w_props w)) (w_env w))
    as [[[]|err] e']; cbn; [|reflexivity].
  now rewrite <- app_assoc.
Qed.

Lemma returns_loadVersions w : returns loadVersions w = true.
Proof.
  unfold returns. destruct (truthy (chatId (w_props w))) eqn:H.
  - rewrite (loadVersions_spec w H).
    now destruct (getChatVersions (chatId (w_props w)) (role (w_props w)) 50 (w_env w))
      as [[vs|err] e'].
  - unfold loadVersions, bind, props. now rewrite H.
Qed.

Lemma exec_loadVersions_returned w vs e' :
  truthy (chatId (w_props w)) = true ->
  getChatVersions (chatId (w_props w)) (role (w_props w)) 50 (w_env w)
  = (Returned vs, e') ->
  let w' := exec loadVersions w in
  w_props w' = w_props w /\ w_env w' = e'
  /\ versions (w_state w') = vs /\ error (w_state w') = None
  /\ loading (w_state w') = false.
Proof.
  intros H Hcall. unfold exec. rewrite (loadVersions_spec w H), Hcall.
  cbn. auto.
Qed.

Lemma exec_loadVersions_thrown w err e' :
  truthy (chatId (w_props w)) = true ->
  getChatVersions (chatId (w_props w)) (role (w_props w)) 50 (w_env w)
  = (Thrown err, e') ->
  let w' := exec loadVersions w in
  w_props w' = w_props w /\ w_env w' = e'
  /\ versions (w_state w') = versions (w_state w)
  /\ error (w_state w') = Some (or_else (message err) (js "Failed to load versions"))
  /\ loading (w_state w') = false.
Proof.
  intros H Hcall. unfold exec. rewrite (loadVersions_spec w H), Hcall.
  cbn. auto.
Qed.

(** *** C3 *)

(** C3. [refresh()] ([loadVersions]) with a [chatId], from any prior state:
    the handler returns normally; if the store's list call returns, [versions]
    is the store's list and [error] is [null]; if it throws, [versions] is
    what it was and [error] is a non-empty message; in both cases [loading]
    is [false] afterwards. A refresh that succeeds after one that failed
    leaves [error] at [null]. *)
Theorem refresh_outcomes w :
  truthy (chatId (w_props w)) = true ->
  let list_versions := getChatVersions (chatId (w_props w)) (role (w_props w)) 50 in
  let w' := exec loadVersions w in
  returns loadVersions w = true
  /\ loading (w_state w') = false
  /\ (forall vs e', list_versions (w_env w) = (Returned vs, e') ->
        versions (w_state w') = vs /\ error (w_state w') = None)
  /\ (forall err e', list_versions (w_env w) = (Thrown err, e') ->
        versions (w_state w') = versions (w_state w)
        /\ exists msg, error (w_state w') = Some msg /\ truthy msg = true)
  /\ (forall err e1 vs e2,
        list_versions (w_env w) = (Thrown err, e1) ->
        list_versions e1 = (Returned vs, e2) ->
        error (w_state (exec loadVersions w')) = None
        /\ versions (w_state (exec loadVersions w')) = vs
        /\ loading (w_state (exec loadVersions w')) = false).
Proof.
  intros H list_versions w'. subst list_versions w'.
  split; [apply returns_loadVersions|].
  destruct (getChatVersions (chatId (w_props w)) (role (w_props w)) 50 (w_env w))
    as [[vs|err] e'] eqn:Hcall.
  - destruct (exec_loadVersions_returned w H Hcall) as (_ & _ & Hv & He & Hl).
    split; [exact Hl|]. split; [|split].
    + intros ? ? Heq. injection Heq as <- _. auto.
    + intros ? ? Heq. discriminate Heq.
    + intros ? ? ? ? Heq. discriminate Heq.
  - destruct (exec_loadVersions_thrown w H Hcall) as (Hp & Henv & Hv & He & Hl).
    split; [exact Hl|]. split; [|split].
    + intros ? ? Heq. discriminate Heq.
    + intros ? ? Heq. injection Heq as <- _. split; [exact Hv|].
      eexists; split; [exact He | now apply or_else_truthy].
    + intros err' e1 vs e2 Heq1 Heq2. injection Heq1 as _ <-.
      assert (H' : truthy (chatId (w_props (exec loadVersions w))) = true)
        by (rewrite Hp; exact H).
      rewrite <- Hp, <- Henv in Heq2.
      destruct (exec_loadVersions_returned _ H' Heq2) as (_ & _ & Hv2 & He2 & Hl2).
      auto.
Qed.

(** *** C4 *)

(** C4. [selectVersion(n)] in normal mode ([handleVersionSelect]) first calls
    the store's switch operation for [n]. If that call returns, the handler
    then reports [n] through [onVersionChange] and closes the dialog, and the
    host's next render is at version [n]. If it throws, the handler sets
    [error] to a non-empty message, logs nothing after the store call (no
    [onVersionChange]), leaves the dialog as it was, and the host's next
    render is at the version it was. Either way the handler returns normally
    with [loading] false. *)
Theorem select_version_normal_mode w n :
  let p := w_props w in
  let switch := switchToVersion (chatId p) n (role p) (w_env w) in
  let called := CallSwitchToVersion (chatId p) n (role p) in
  let w' := exec (handleVersionSelect n) w in
  returns (handleVersionSelect n) w = true
  /\ loading (w_state w') = false
  /\ (forall e', switch = (Returned tt, e') ->
        w_log w' = w_log w ++ [called; HostOnVersionChange n]
        /\ dialogOpen (w_state w') = false
        /\ error (w_state w') = error (w_state w)
        /\ currentVersion (w_props (interact (handleVersionSelect n) w)) = n)
  /\ (forall err e', switch = (Thrown err, e') ->
        w_log w' = w_log w ++ [called]
        /\ (exists msg, error (w_state w') = Some msg /\ truthy msg = true)
        /\ dialogOpen (w_state w') = dialogOpen (w_state w)
        /\ currentVersion (w_props (interact (handleVersionSelect n) w))
           = currentVersion (w_props w)).
Proof.
  intros p switch called w'. subst switch called w' p.
  unfold returns, interact, exec.
  rewrite !handleVersionSelect_spec. cbn [w_props w_state w_env w_log].
  destruct (switchToVersion (chatId (w_props w)) n (role (w_props w)) (w_env w))
    as [[[]|err] e0];
    cbn [fst snd w_props w_state w_log loading error dialogOpen app];
    (split; [reflexivity|]); (split; [reflexivity|]); split.
  - intros e' _. repeat split; reflexivity.
  - intros err e' Heq. discriminate Heq.
  - intros e' Heq. discriminate Heq.
  - intros err' e' Heq. injection Heq as <- _.
    split; [reflexivity|]. split; [|split; reflexivity].
    eexists; split; [reflexivity | now apply or_else_truthy].
Qed.

(** *** The selection of compare mode *)

Lemma includes_In (l : list Z) n : includes l n = true <-> In n l.
Proof.
  unfold includes. rewrite existsb_exists. split.
  - intros (x & Hx & Heq). apply Z.eqb_eq in Heq. now subst.
  - intros H. exists n. split; [exact H | apply Z.eqb_refl].
Qed.

Lemma includes_not_In (l : list Z) n : includes l n = false <-> ~ In n l.
Proof.
  rewrite <- includes_In. destruct (includes l n); split; congruence.
Qed.

Lemma filter_out_In (l : list Z) n m :
  In m (filter (fun v => negb (v =? n)) l) <-> In m l /\ m <> n.
Proof.
  rewrite filter_In, negb_true_iff, Z.eqb_neq. reflexivity.
Qed.

Lemma filter_out_length (l : list Z) n :
  (List.length (filter (fun v => negb (v =? n)%Z) l) <= List.length l)%nat.
Proof.
  induction l as [|x l IH]; simpl; [lia|].
  destruct (negb (x =? n)); simpl; lia.
Qed.

(** A click keeps the selection within two distinct versions. *)
Lemma toggled_ok (l : list Z) n : selection_ok l -> selection_ok (toggled n l).
Proof.
  intros [Hlen Hnd]. unfold toggled.
  destruct (includes l n) eqn:Hin.
  - split.
    + pose proof (filter_out_length l n). lia.
    + now apply NoDup_filter.
  - destruct (Z.ltb_spec (Z.of_nat (List.length l)) 2) as [Hlt|Hge].
    + split.
      * rewrite length_app. simpl. lia.
      * apply NoDup_app; [exact Hnd | constructor; [intros [] | constructor] |].
        intros x Hx [<-|[]]. now apply includes_not_In in Hin.
    + now split.
Qed.

(** [handleVersionToggleForCompare] changes the selection and nothing else. *)
Lemma handleVersionToggleForCompare_spec w n :
  handleVersionToggleForCompare n w
  = (Returned tt,
     mkWorld (w_props w)
             (with_selectedVersions (fun _ => toggled n (selectedVersions (w_state w)))
                                    (w_state w))
             (w_env w) (w_log w)).
Proof.
  unfold handleVersionToggleForCompare, toggled, bind, state, setSelectedVersions,
    modify, ret.
  destruct w as [p [vs d l e a m c sel] en lg].
  cbn [w_state w_props w_env w_log selectedVersions].
  destruct (includes sel n); [reflexivity|].
  destruct (Z.of_nat (List.length sel) <? 2); reflexivity.
Qed.

(** *** What the handlers leave alone *)

(** Runs a handler symbolically: unfolds the monad and splits on every
    answer of the environment and every test. *)
Ltac run_handler :=
  unfold exec, handleDeleteVersion, handleCopyVersion, handleCompareVersions,
    handleOpenDialog, loadVersions, handleVersionSelect, handleMenuOpen,
    handleMenuClose, handlePreviousVersion, handleNextVersion, toggleCompareMode,
    onVersionChange, setVersions, setDialogOpen, setLoading, setError,
    setMenuAnchorEl, setSelectedVersionForMenu, setCompareMode,
    setSelectedVersions, nothing, try_catch_finally, try_catch, bind, call,
    emit, modify, ret, props, state;
  repeat (cbv beta iota;
          cbn [snd fst w_props w_state w_env w_log negb];
          match goal with
          | |- context [getChatVersions ?a ?b ?c ?e] =>
              destruct (getChatVersions a b c e) as [[?|?] ?]
          | |- context [switchToVersion ?a ?b ?c ?e] =>
              destruct (switchToVersion a b c e) as [[[]|?] ?]
          | |- context [deleteVersion ?a ?b ?c ?e] =>
              destruct (deleteVersion a b c e) as [[[]|?] ?]
          | |- context [compareVersions ?a ?b ?c ?d ?e] =>
              destruct (compareVersions a b c d e) as [[[]|?] ?]
          | |- context [clipboardWriteText ?a ?e] =>
              destruct (clipboardWriteText a e) as [[[]|?] ?]
          | |- context [if ?b then _ else _] => destruct b
          | |- context [match selectedVersionForMenu ?s with _ => _ end] =>
              destruct (selectedVersionForMenu s)
          | |- context [match selectedVersions ?s with _ => _ end] =>
              destruct (selectedVersions s) as [|? [|? [|? ?]]] eqn:?
          end);
  cbv beta iota; cbn [snd fst w_props w_state w_env w_log].


Lemma loadVersions_comparison w :
  comparison (exec loadVersions w) = comparison w.
Proof. unfold comparison. run_handler; simpl; congruence. Qed.

Lemma handleOpenDialog_comparison w :
  comparison (exec handleOpenDialog w) = comparison w.
Proof. unfold comparison. run_handler; simpl; congruence. Qed.

Lemma handleVersionSelect_comparison w n :
  comparison (exec (handleVersionSelect n) w) = comparison w.
Proof. unfold comparison. run_handler; simpl; congruence. Qed.

Lemma handleDeleteVersion_comparison w n :
  comparison (exec (handleDeleteVersion n) w) = comparison w.
Proof. unfold comparison. run_handler; simpl; congruence. Qed.

Lemma handleCopyVersion_comparison w text :
  comparison (exec (handleCopyVersion text) w) = comparison w.
Proof. unfold comparison. run_handler; simpl; congruence. Qed.

Lemma handleCompareVersions_comparison w :
  comparison (exec handleCompareVersions w) = comparison w.
Proof. unfold comparison. run_handler; simpl; congruence. Qed.

Lemma handlePreviousVersion_comparison w :
  comparison (exec handlePreviousVersion w) = comparison w.
Proof. unfold comparison. run_handler; simpl; congruence. Qed.

Lemma handleNextVersion_comparison w :
  comparison (exec handleNextVersion w) = comparison w.
Proof. unfold comparison. run_handler; simpl; congruence. Qed.

Lemma handleMenuOpen_comparison w target v :
  comparison (exec (handleMenuOpen target v) w) = comparison w.
Proof. unfold comparison. run_handler; simpl; congruence. Qed.

Lemma handleMenuClose_comparison w :
  comparison (exec handleMenuClose w) = comparison w.
Proof. unfold comparison. run_handler; simpl; congruence. Qed.

Create HintDb frame.
#[local] Hint Resolve loadVersions_comparison handleOpenDialog_comparison
  handleVersionSelect_comparison handleDeleteVersion_comparison
  handleCopyVersion_comparison handleCompareVersions_comparison
  handlePreviousVersion_comparison handleNextVersion_comparison
  handleMenuOpen_comparison handleMenuClose_comparison : frame.

Lemma comparison_selection (w' w : World Props State E) :
  comparison w' = comparison w ->
  selectedVersions (w_state w') = selectedVersions (w_state w).
Proof. unfold comparison. congruence. Qed.

(** [dispatch], by what is rendered. *)
Lemma dispatch_spec w ev :
  dispatch ev w
  = match render (w_props w) (w_state w) with
    | Some v => reaction v ev w
    | None => (Returned tt, w)
    end.
Proof.
  unfold dispatch, bind, props, state.
  now destruct (render (w_props w) (w_state w)).
Qed.

(** An interaction leaves the selection as it is, empties it, or is a click
    on a row in compare mode. *)
Lemma dispatch_selection w ev :
  let sel := selectedVersions (w_state w) in
  let sel' := selectedVersions (w_state (exec (dispatch ev) w)) in
  sel' = sel \/ sel' = [] \/ exists n, sel' = toggled n sel.
Proof.
  intros sel sel'. subst sel sel'.
  unfold exec. rewrite dispatch_spec.
  destruct (render (w_props w) (w_state w)) as [v|]; [|now left].
  unfold reaction.
  assert (Hnothing : selectedVersions (w_state (snd (nothing w)))
                     = selectedVersions (w_state w)) by reflexivity.
  destruct ev;
    repeat match goal with
           | |- context [if ?b then _ else _] => destruct b
           | |- context [match dialog ?v with _ => _ end] => destruct (dialog v)
           | |- context [match menu ?v with _ => _ end] => destruct (menu v)
           | |- context [match nth_error ?l ?i with _ => _ end] =>
               destruct (nth_error l i)
           end;
    try (left; exact Hnothing);
    try (left; apply comparison_selection; change (snd (?h w)) with (exec h w);
         solve [auto with frame]);
    try (right; left; reflexivity).
  - (* a row *)
    unfold onClickRow, bind, state. cbv beta iota.
    destruct (compareMode (w_state w)).
    + right; right. eexists. rewrite handleVersionToggleForCompare_spec. reflexivity.
    + left. apply comparison_selection. change (snd (?h w)) with (exec h w).
      auto with frame.
  - (* Copy Content *)
    unfold onClickCopyContent, bind, state. cbv beta iota.
    destruct (selectedVersionForMenu (w_state w)); [|left; exact Hnothing].
    left. apply comparison_selection. change (snd (?h w)) with (exec h w).
    auto with frame.
  - (* Switch to This Version *)
    unfold onClickSwitchToThisVersion, bind, state. cbv beta iota.
    destruct (selectedVersionForMenu (w_state w)); [|left; exact Hnothing].
    left. apply comparison_selection. change (snd (?h w)) with (exec h w).
    auto with frame.
  - (* Delete Version *)
    unfold onClickDeleteVersion, bind, state. cbv beta iota.
    destruct (selectedVersionForMenu (w_state w)); [|left; exact Hnothing].
    left. apply comparison_selection. change (snd (?h w)) with (exec h w).
    auto with frame.
Qed.

(** In every reachable world the selection holds at most two versions and
    no version twice. *)
Lemma reachable_selection_ok w :
  reachable w -> selection_ok (selectedVersions (w_state w)).
Proof.
  induction 1 as [p e | w ev _ IH | w p _ IH | w e _ IH]; cbn [w_state]; try exact IH.
  - split; [simpl; lia | constructor].
  - destruct (dispatch_selection w ev) as [-> | [-> | [n ->]]].
    + exact IH.
    + split; [simpl; lia | constructor].
    + now apply toggled_ok.
Qed.

(** *** C7 *)

(** C7. In compare mode, [selectVersion(n)] ([handleVersionToggleForCompare])
    removes [n] from [selectedVersions] when it is there (the other
    selections stay, in order), appends [n] when it is not there and fewer
    than two versions are selected, and changes nothing when two are selected
    and [n] is not one of them. It keeps a selection within two distinct
    versions, and in every world the component can reach [selectedVersions]
    has at most two elements and no duplicate. *)
Theorem compare_selection_toggle w n :
  let sel := selectedVersions (w_state w) in
  let w' := exec (handleVersionToggleForCompare n) w in
  let sel' := selectedVersions (w_state w') in
  returns (handleVersionToggleForCompare n) w = true
  /\ (In n sel ->
      sel' = filter (fun v => negb (v =? n)) sel
      /\ ~ In n sel'
      /\ forall m, m <> n -> (In m sel' <-> In m sel))
  /\ (~ In n sel -> (List.length sel < 2)%nat -> sel' = sel ++ [n])
  /\ (~ In n sel -> (2 <= List.length sel)%nat -> w' = w)
  /\ (selection_ok sel -> selection_ok sel')
  /\ (reachable w -> (List.length sel <= 2)%nat /\ NoDup sel).
Proof.
  intros sel w' sel'. subst sel' w'.
  unfold returns, exec. rewrite handleVersionToggleForCompare_spec.
  cbn [fst snd w_state with_selectedVersions selectedVersions]. fold sel.
  split; [reflexivity|]. split; [|split; [|split; [|split]]].
  - intros Hin. unfold toggled.
    apply includes_In in Hin. fold sel in Hin. rewrite Hin.
    split; [reflexivity|]. split.
    + rewrite filter_out_In. tauto.
    + intros m Hm. rewrite filter_out_In. tauto.
  - intros Hnot Hlen. unfold toggled.
    apply includes_not_In in Hnot. rewrite Hnot.
    destruct (Z.ltb_spec (Z.of_nat (List.length sel)) 2); [reflexivity | lia].
  - intros Hnot Hlen. unfold toggled.
    apply includes_not_In in Hnot. rewrite Hnot.
    destruct (Z.ltb_spec (Z.of_nat (List.length sel)) 2); [lia|].
    subst sel. now destruct w as [p [] e l].
  - apply toggled_ok.
  - intros Hreach. exact (reachable_selection_ok Hreach).
Qed.

(** *** C9 *)

(** C9. While [compareMode] is true, a click on a row of the version list
    returns normally and logs nothing: no switch call to the store, no
    [onVersionChange]; the props, the environment, the dialog and every cell
    of the state but [selectedVersions] are as before, and [selectedVersions]
    is the selection toggled on the version of the clicked row. *)
Theorem compare_mode_click w (i : nat) :
  compareMode (w_state w) = true ->
  let w' := exec (dispatch (ClickVersionRow i)) w in
  returns (dispatch (ClickVersionRow i)) w = true
  /\ w_log w' = w_log w
  /\ count_events is_switch_call (w_log w') = count_events is_switch_call (w_log w)
  /\ count_events is_version_change (w_log w') = count_events is_version_change (w_log w)
  /\ w_props w' = w_props w
  /\ w_env w' = w_env w
  /\ dialogOpen (w_state w') = dialogOpen (w_state w)
  /\ with_selectedVersions (fun _ => selectedVersions (w_state w)) (w_state w')
     = w_state w
  /\ (forall v item,
        render (w_props w) (w_state w) = Some v ->
        nth_error (rows v) i = Some item ->
        selectedVersions (w_state w')
        = toggled (versionNumber (item_version item)) (selectedVersions (w_state w))).
Proof.
  intros Hmode w'. subst w'. unfold returns, exec. rewrite dispatch_spec.
  assert (Heta : with_selectedVersions (fun _ => selectedVersions (w_state w)) (w_state w)
                 = w_state w) by now destruct (w_state w).
  destruct (render (w_props w) (w_state w)) as [v|].
  - cbn [reaction]. destruct (nth_error (rows v) i) as [item|] eqn:Hrow.
    + unfold onClickRow, bind, state. cbv beta iota. rewrite Hmode.
      rewrite handleVersionToggleForCompare_spec.
      cbn [fst snd w_log w_props w_env w_state].
      repeat split; try reflexivity.
      * now destruct (w_state w).
      * intros v0 item0 Hv Hitem.
        injection Hv as <-. rewrite Hrow in Hitem. injection Hitem as <-.
        reflexivity.
    + cbn. repeat split; try reflexivity; try exact Heta.
      intros ? ? Hv Hitem. injection Hv as <-. rewrite Hrow in Hitem.
      discriminate Hitem.
  - cbn. repeat split; try reflexivity; try exact Heta.
    intros ? ? Hv. discriminate Hv.
Qed.

(** *** C1 *)

(** The guard on deletion is the menu's: while the version the actions menu
    was opened on carries [isCurrentVersion], the Delete Version item is
    disabled, and a click on it returns normally with the world unchanged, so
    the store's delete is not called. *)
Theorem delete_disabled_on_current_flag w (version : ChatVersion) :
  selectedVersionForMenu (w_state w) = Some version ->
  isCurrentVersion version = true ->
  dispatch ClickDeleteVersion w = (Returned tt, w)
  /\ count_events is_delete_call (w_log (exec (dispatch ClickDeleteVersion) w))
     = count_events is_delete_call (w_log w)
  /\ (forall v m,
        render (w_props w) (w_state w) = Some v -> menu v = Some m ->
        delete_item_disabled m = true).
Proof.
  intros Hsel Hcur.
  assert (Hmenu : forall v m,
             render (w_props w) (w_state w) = Some v -> menu v = Some m ->
             delete_item_disabled m = true).
  { intros v m Hv Hm. unfold render in Hv.
    destruct (negb (hasMultipleVersions (w_props w)) && (totalVersions (w_props w) <=? 1));
      [discriminate|].
    injection Hv as <-. cbn [menu] in Hm.
    destruct (menuAnchorEl (w_state w)); [|discriminate].
    injection Hm as <-. unfold render_menu. cbn. now rewrite Hsel. }
  assert (Hrun : dispatch ClickDeleteVersion w = (Returned tt, w)).
  { rewrite dispatch_spec.
    destruct (render (w_props w) (w_state w)) as [v|] eqn:Hv; [|reflexivity].
    cbn [reaction]. destruct (menu v) as [m|] eqn:Hm; [|reflexivity].
    now rewrite (Hmenu v m eq_refl Hm). }
  unfold exec. rewrite Hrun. auto.
Qed.

End WithEnvironment.

(** *** Instances on the scripted environment *)

Import Scripted Scenario.

Lemma refresh_without_chatId_witness :
  truthy (chatId (w_props no_chat)) = false
  /\ loadVersions no_chat = (Returned tt, no_chat)
  /\ NavigatorV1.loadVersions no_chat_v1 = (Returned tt, no_chat_v1).
Proof.
  destruct (refresh_without_chatId no_chat no_chat_v1) as [H2 H1].
  split; [reflexivity|].
  split; [apply H2; reflexivity | apply H1; reflexivity].
Defined.

Lemma control_absent_iff_witness :
  render single_plain initial = None.
Proof.
  apply (control_absent_iff single_plain initial).
  split; [reflexivity | discriminate].
Defined.

(** C2 as stated fails on the code: a message with [totalVersions = 1] whose
    host passes [hasMultipleVersions = true] gets a control, labelled [1/1];
    and the earlier revision, whose early return is commented out, renders a
    control for every input. *)
Lemma single_version_control_rendered :
  totalVersions single_flagged <= 1
  /\ render single_flagged initial = Some (mkView false (1, 1) None None)
  /\ NavigatorV1.totalVersions single_v1 <= 1
  /\ NavigatorV1.render single_v1 NavigatorV1.initial <> None.
Proof.
  split; [discriminate|]. split; [reflexivity|].
  split; [discriminate|]. discriminate.
Qed.

Lemma step_previous_next_witness :
  1 <= currentVersion (w_props (browsing 1 [])) <= totalVersions (w_props (browsing 1 []))
  /\ w_log (exec handlePreviousVersion (browsing 1 [])) = [HostOnVersionChange 3]
  /\ w_log (exec handleNextVersion (browsing 1 [])) = [HostOnVersionChange 2].
Proof.
  assert (Hrange : 1 <= currentVersion (w_props (browsing 1 []))
                   <= totalVersions (w_props (browsing 1 [])))
    by (split; discriminate).
  destruct (step_previous_next (browsing 1 []) Hrange) as (_ & Hwrap & Hnext & _).
  split; [exact Hrange|]. unfold exec. split.
  - rewrite (Hwrap eq_refl). reflexivity.
  - rewrite (Hnext eq_refl). reflexivity.
Defined.

Lemma next_cycle_closes_witness :
  1 <= totalVersions (w_props (mounted 1 []))
  /\ currentVersion (w_props (mounted 1 [])) = 1
  /\ currentVersion (w_props (repeat_interact 3 handleNextVersion (mounted 1 []))) = 1.
Proof.
  split; [discriminate|]. split; [reflexivity|].
  apply (next_cycle_closes (mounted 1 [])); [discriminate | reflexivity].
Defined.

Lemma refresh_outcomes_witness :
  let w := browsing 2 [false; true] in
  truthy (chatId (w_props w)) = true
  /\ versions (w_state (exec loadVersions w)) = three
  /\ error (w_state (exec loadVersions w)) <> None
  /\ loading (w_state (exec loadVersions w)) = false
  /\ error (w_state (exec loadVersions (exec loadVersions w))) = None.
Proof.
  intros w.
  destruct (@refresh_outcomes _ _ w eq_refl) as (_ & Hload & _ & Hfail & Hthen).
  destruct (Hfail network_error (mkEnv [true] three) eq_refl) as [Hv (msg & He & _)].
  destruct (Hthen network_error (mkEnv [true] three) three (mkEnv [] three)
                  eq_refl eq_refl) as (Hnone & _).
  split; [reflexivity|]. split; [exact Hv|].
  split; [rewrite He; discriminate|]. split; [exact Hload | exact Hnone].
Defined.

Lemma select_version_normal_mode_witness :
  (let w := browsing 2 [] in
   w_log (exec (handleVersionSelect 3) w)
   = [CallSwitchToVersion (js "chat-1") 3 user; HostOnVersionChange 3]
   /\ dialogOpen (w_state (exec (handleVersionSelect 3) w)) = false
   /\ currentVersion (w_props (interact (handleVersionSelect 3) w)) = 3)
  /\
  (let w := browsing 2 [false] in
   w_log (exec (handleVersionSelect 3) w)
   = [CallSwitchToVersion (js "chat-1") 3 user]
   /\ error (w_state (exec (handleVersionSelect 3) w)) <> None
   /\ dialogOpen (w_state (exec (handleVersionSelect 3) w)) = true
   /\ currentVersion (w_props (interact (handleVersionSelect 3) w)) = 2).
Proof.
  split; intros w.
  - destruct (@select_version_normal_mode _ _ w 3) as (_ & _ & Hok & _).
    destruct (Hok (mkEnv [] three) eq_refl) as (Hlog & Hd & _ & Hc).
    auto.
  - destruct (@select_version_normal_mode _ _ w 3) as (_ & _ & _ & Hfail).
    destruct (Hfail network_error (mkEnv [] three) eq_refl)
      as (Hlog & (msg & He & _) & Hd & Hc).
    split; [exact Hlog|]. split; [rewrite He; discriminate|]. auto.
Defined.

Lemma two_picked_reachable : reachable two_picked.
Proof. unfold two_picked. repeat apply reach_dispatch. apply reach_mount. Qed.

Lemma compare_selection_toggle_witness :
  selectedVersions (w_state two_picked) = [1; 2]
  /\ exec (handleVersionToggleForCompare 3) two_picked = two_picked
  /\ selectedVersions (w_state (exec (handleVersionToggleForCompare 1) two_picked)) = [2]
  /\ (List.length (selectedVersions (w_state two_picked)) <= 2)%nat
  /\ NoDup (selectedVersions (w_state two_picked)).
Proof.
  destruct (@compare_selection_toggle _ _ two_picked 3) as (_ & _ & _ & Hfull & _ & Hinv).
  destruct (@compare_selection_toggle _ _ two_picked 1) as (_ & Hdrop & _).
  split; [reflexivity|]. split; [|split].
  - apply Hfull.
    + intros [H|[H|[]]]; discriminate H.
    + apply Nat.le_refl.
  - destruct Hdrop as (Heq & _); [left; reflexivity|].
    rewrite Heq. reflexivity.
  - apply Hinv. exact two_picked_reachable.
Defined.

Lemma compare_mode_click_witness :
  compareMode (w_state (comparing [1])) = true
  /\ w_log (exec (dispatch (ClickVersionRow 2)) (comparing [1])) = []
  /\ dialogOpen (w_state (exec (dispatch (ClickVersionRow 2)) (comparing [1]))) = true
  /\ selectedVersions (w_state (exec (dispatch (ClickVersionRow 2)) (comparing [1])))
     = [1; 3].
Proof.
  destruct (@compare_mode_click _ _ (comparing [1]) 2%nat eq_refl)
    as (_ & Hlog & _ & _ & _ & _ & Hd & _ & Hsel).
  split; [reflexivity|]. split; [exact Hlog|]. split; [exact Hd|].
  rewrite (Hsel _ _ eq_refl eq_refl). reflexivity.
Defined.

Lemma delete_disabled_on_current_flag_witness :
  option_map versionNumber (selectedVersionForMenu (w_state menu_on_current)) = Some 2
  /\ currentVersion (w_props menu_on_current) = 2
  /\ dispatch ClickDeleteVersion menu_on_current = (Returned tt, menu_on_current).
Proof.
  split; [reflexivity|]. split; [reflexivity|].
  apply (@delete_disabled_on_current_flag _ _ menu_on_current (version 2 true "second"));
    reflexivity.
Defined.

(** C1, at a failing input. [deleteVersion] of the current version must not
    reach the store, and the Delete Version item is disabled on a row flagged
    current for that purpose; yet the guard is defeated. The user opens the
    browser at version 2, opens the menu of the row of version 3 and picks
    Switch to This Version. [handleVersionSelect] reports version 3 and closes
    the dialog but, unlike [handleCopyVersion] and [handleDeleteVersion], does
    not close the menu: the host now shows version 3, the menu is still open
    on the row as it was loaded, not flagged current, Delete Version is
    enabled, and a click on it calls the store's delete for version 3, the
    version on display. [handleDeleteVersion] itself never compares its
    argument with [currentVersion]. *)
Lemma delete_current_version_reaches_store :
  reachable switched_from_menu
  /\ currentVersion (w_props switched_from_menu) = 3
  /\ menuAnchorEl (w_state switched_from_menu) = Some 0%nat
  /\ selectedVersionForMenu (w_state switched_from_menu)
     = Some (Scripted.version 3 false "third")
  /\ (exists v m,
        render (w_props switched_from_menu) (w_state switched_from_menu) = Some v
        /\ menu v = Some m /\ delete_item_disabled m = false)
  /\ count_events is_delete_call (w_log switched_from_menu) = 0%nat
  /\ w_log (exec (dispatch ClickDeleteVersion) switched_from_menu)
     = w_log switched_from_menu
       ++ [CallDeleteVersion (js "chat-1") 3 user;
           CallGetChatVersions (js "chat-1") user 50]
  /\ count_events is_delete_call
       (w_log (exec (dispatch ClickDeleteVersion) switched_from_menu)) = 1%nat
  /\ count_events is_delete_call
       (w_log (exec (handleDeleteVersion 3) (mkWorld (w_props switched_from_menu)
                                                     (w_state switched_from_menu)
                                                     (w_env switched_from_menu) [])))
     = 1%nat.
Proof.
  split.
  { unfold switched_from_menu, menu_opened. cbv zeta.
    apply reach_props. repeat apply reach_dispatch. apply reach_mount. }
  split; [reflexivity|]. split; [reflexivity|]. split; [reflexivity|].
  split; [eexists; eexists; repeat split; reflexivity|].
  repeat split; reflexivity.
Qed.

End NavigatorFacts.

(** ** The editing mediator *)

Module EditingFacts.

Import Editing.

(** No effect runs between two renders that agree on the message, on the
    mode and on the draft. *)
Lemma effects_settled (prev cur : Editor) :
  message_content prev = message_content cur ->
  isEditing prev = isEditing cur ->
  settled cur ->
  effects prev cur = cur.
Proof.
  unfold settled, effects. intros Hc He Hs.
  rewrite Hc, He, strict_eq_refl, Bool.eqb_reflx. cbn [negb orb].
  destruct (strict_eq (editedContent prev) (editedContent cur)); cbn [negb orb].
  - reflexivity.
  - rewrite <- Hs. now destruct cur.
Qed.

Lemma effects_message_content (prev cur : Editor) :
  message_content (effects prev cur) = message_content cur.
Proof.
  unfold effects.
  repeat match goal with |- context [if ?b then _ else _] => destruct b end;
    reflexivity.
Qed.

Lemma effects_isEditing (prev cur : Editor) :
  isEditing (effects prev cur) = isEditing cur.
Proof.
  unfold effects.
  repeat match goal with |- context [if ?b then _ else _] => destruct b end;
    reflexivity.
Qed.

(** When the first round of effects leaves a settled render, it is the last. *)
Lemma settle_once (prev cur : Editor) :
  settled (effects prev cur) -> settle prev cur = effects prev cur.
Proof.
  intros Hs. unfold settle. cbv zeta.
  rewrite (@effects_settled cur (effects prev cur));
    auto using effects_message_content, effects_isEditing.
  now apply effects_settled.
Qed.

(** Typing a draft in a settled editor: the field holds the draft and
    [hasChanges] tells whether it differs from the message. *)
Lemma type_draft_spec (w : Editor) (draft : jsstring) :
  isEditing w = true -> settled w ->
  type_draft draft w
  = mkEditor (message_content w) (onEditMessage_given w) (message_loading w) true
             draft (negb (strict_eq draft (message_content w))) (edit_calls w).
Proof.
  intros Hed Hset. unfold type_draft. rewrite Hed.
  assert (Hround : effects w (setEditedContent draft w)
                   = mkEditor (message_content w) (onEditMessage_given w)
                              (message_loading w) true draft
                              (negb (strict_eq draft (message_content w)))
                              (edit_calls w)).
  { unfold settled in Hset. destruct w as [c g l e d h calls].
    cbn in Hed, Hset. subst e h.
    unfold effects, setEditedContent, setHasChanges.
    cbn [isEditing message_content editedContent hasChanges onEditMessage_given
         message_loading edit_calls].
    rewrite strict_eq_refl. cbn [negb orb Bool.eqb].
    destruct (strict_eq d draft) eqn:Hd; cbn [negb orb]; [|reflexivity].
    apply strict_eq_spec in Hd. now subst d. }
  rewrite settle_once; rewrite Hround; [reflexivity|].
  reflexivity.
Qed.

(** [saveEdit(draft)] in a settled editor, by the draft. *)
Lemma saveEdit_spec (w : Editor) (draft : jsstring) :
  isEditing w = true -> settled w ->
  saveEdit draft w
  = if truthy (trim draft) && negb (strict_eq draft (message_content w))
    then mkEditor (message_content w) (onEditMessage_given w) (message_loading w)
                  false (message_content w) false
                  (if onEditMessage_given w
                      && negb (strict_eq (trim draft) (message_content w))
                   then edit_calls w ++ [trim draft]
                   else edit_calls w)
    else mkEditor (message_content w) (onEditMessage_given w) (message_loading w)
                  true draft (negb (strict_eq draft (message_content w)))
                  (edit_calls w).
Proof.
  intros Hed Hset. unfold saveEdit. rewrite (type_draft_spec draft Hed Hset).
  destruct w as [c g l e d h calls].
  cbn [message_content onEditMessage_given message_loading edit_calls].
  unfold press_save, handleSave.
  cbn [isEditing editedContent hasChanges].
  destruct (truthy (trim draft) && negb (strict_eq draft c)) eqn:Hsave.
  - apply andb_true_iff in Hsave. destruct Hsave as [Htrim Hdiff].
    unfold handleSaveEdit.
    cbn [onEditMessage_given message_content].
    rewrite truthy_trim_trim, Htrim, andb_true_r.
    rewrite settle_once.
    + unfold effects.
      destruct (g && negb (strict_eq (trim draft) c));
        cbn [onEditMessage setIsEditing setEditedContent setHasChanges
             isEditing message_content editedContent hasChanges
             onEditMessage_given message_loading edit_calls];
        rewrite !strict_eq_refl; reflexivity.
    + unfold effects, settled.
      destruct (g && negb (strict_eq (trim draft) c));
        cbn [onEditMessage setIsEditing setEditedContent setHasChanges
             isEditing message_content editedContent hasChanges
             onEditMessage_given message_loading edit_calls];
        rewrite !strict_eq_refl; cbn; rewrite ?strict_eq_refl; reflexivity.
  - rewrite settle_once; rewrite effects_settled; reflexivity.
Qed.

(** *** C5 *)

(** C5, as the code has it. With the editor open on a message, [saveEdit(draft)]
    - calls the host's edit callback once, with the trimmed draft, and leaves
      edit mode, when the host gave a callback, the trimmed draft is not empty
      and both the draft and the trimmed draft differ from the message;
    - does nothing when the trimmed draft is empty or the draft is the message:
      no callback, the editor stays open on the draft;
    - calls no callback and leaves edit mode when the draft is not blank and
      differs from the message, but its trimming is the message or the host
      gave no callback. *)
Theorem save_edit (w : Editor) (draft : jsstring) :
  isEditing w = true -> settled w ->
  let original := message_content w in
  let w' := saveEdit draft w in
  (onEditMessage_given w = true -> trim draft <> [] ->
   draft <> original -> trim draft <> original ->
   edit_calls w' = edit_calls w ++ [trim draft] /\ isEditing w' = false)
  /\ (trim draft = [] \/ draft = original ->
      edit_calls w' = edit_calls w /\ isEditing w' = true
      /\ editedContent w' = draft)
  /\ (trim draft <> [] -> draft <> original ->
      trim draft = original \/ onEditMessage_given w = false ->
      edit_calls w' = edit_calls w /\ isEditing w' = false)
  /\ settled w'.
Proof.
  intros Hed Hset original w'. subst w' original.
  rewrite (saveEdit_spec draft Hed Hset).
  split; [|split; [|split]].
  - intros Hg Htrim Hdiff Htdiff.
    apply truthy_true in Htrim. apply strict_eq_false in Hdiff, Htdiff.
    rewrite Htrim, Hdiff, Hg, Htdiff. cbn. auto.
  - intros [Hblank | Hsame].
    + rewrite Hblank. cbn. auto.
    + rewrite Hsame, strict_eq_refl, andb_false_r. cbn. auto.
  - intros Htrim Hdiff Hno.
    apply truthy_true in Htrim. apply strict_eq_false in Hdiff.
    rewrite Htrim, Hdiff. cbn [negb andb].
    destruct Hno as [Hsame | Hg].
    + rewrite Hsame, strict_eq_refl, andb_false_r. cbn. auto.
    + rewrite Hg. cbn. auto.
  - unfold settled.
    destruct (truthy (trim draft) && negb (strict_eq draft (message_content w)));
      cbn; [now rewrite strict_eq_refl | reflexivity].
Qed.

(** *** Instances *)

Import Scenario.

Lemma save_edit_witness :
  isEditing editing_hello = true
  /\ settled editing_hello
  /\ edit_calls (saveEdit (js "  hello world ") editing_hello) = [js "hello world"]
  /\ isEditing (saveEdit (js "  hello world ") editing_hello) = false.
Proof.
  destruct (@save_edit editing_hello (js "  hello world ") eq_refl eq_refl)
    as (Hsave & _).
  split; [reflexivity|]. split; [reflexivity|].
  apply Hsave; [reflexivity | discriminate | discriminate | discriminate].
Defined.

(** C5 as stated fails on the code. Saving a draft equal to the message
    calls no callback but does not leave edit mode: the editor's own guard
    (also the Save button's [disabled]) stops the save before
    [handleSaveEdit], the only place that leaves edit mode, is reached. And a
    draft whose trimming is not empty and which differs from the message only
    by a trailing space is not passed to the callback. *)
Lemma save_unchanged_draft_stays_in_edit_mode :
  message_content editing_hello = js "hello"
  /\ edit_calls (saveEdit (js "hello") editing_hello) = []
  /\ isEditing (saveEdit (js "hello") editing_hello) = true
  /\ trim (js "hello ") = js "hello"
  /\ edit_calls (saveEdit (js "hello ") editing_hello) = []
  /\ isEditing (saveEdit (js "hello ") editing_hello) = false.
Proof. repeat split; reflexivity. Qed.

End EditingFacts.

(** ** More on the version controller *)

Module NavigatorMore.

Import Navigator NavigatorFacts.

(** Splits on the answers of the environment and on the tests a handler
    makes, after its definition was unfolded. *)
Ltac split_answers :=
  repeat (cbv beta iota;
          cbn [snd fst w_props w_state w_env w_log negb];
          match goal with
          | |- context [getChatVersions ?a ?b ?c ?e] =>
              destruct (getChatVersions a b c e) as [[?|?] ?]
          | |- context [switchToVersion ?a ?b ?c ?e] =>
              destruct (switchToVersion a b c e) as [[[]|?] ?]
          | |- context [deleteVersion ?a ?b ?c ?e] =>
              destruct (deleteVersion a b c e) as [[[]|?] ?]
          | |- context [compareVersions ?a ?b ?c ?d ?e] =>
              destruct (compareVersions a b c d e) as [[[]|?] ?]
          | |- context [clipboardWriteText ?a ?e] =>
              destruct (clipboardWriteText a e) as [[[]|?] ?]
          | |- context [if ?b then _ else _] =>
              lazymatch type of b with bool => destruct b eqn:? end
          | |- context [match selectedVersionForMenu ?s with _ => _ end] =>
              destruct (selectedVersionForMenu s) eqn:?
          | |- context [match selectedVersions ?s with _ => _ end] =>
              destruct (selectedVersions s) as [|? [|? [|? ?]]] eqn:?
          end);
  cbv beta iota; cbn [snd fst w_props w_state w_env w_log].

Ltac unfold_handlers :=
  unfold exec, returns, onClickRow, onClickCopyContent, onClickSwitchToThisVersion,
    onClickDeleteVersion, handleDeleteVersion, handleCopyVersion,
    handleCompareVersions, handleOpenDialog, loadVersions, handleVersionSelect,
    handleMenuOpen, handleMenuClose, handlePreviousVersion, handleNextVersion,
    toggleCompareMode, handleVersionToggleForCompare, onVersionChange,
    setVersions, setDialogOpen, setLoading, setError, setMenuAnchorEl,
    setSelectedVersionForMenu, setCompareMode, setSelectedVersions, nothing,
    try_catch_finally, try_catch, bind, call, emit, modify, ret, props, state.

Section WithEnvironment.

Context {E : Type} {env : Environment E}.

Implicit Types (w : World Props State E) (n : Z).

(** *** What holds between interactions *)

Lemma reaction_coherent (v : View) (ev : UIEvent) w :
  coherent (w_state w) -> coherent (w_state (exec (reaction v ev) w)).
Proof.
  intros Hc.
  destruct ev; cbn [reaction];
    repeat match goal with
           | |- context [if ?b then _ else _] => destruct b
           | |- context [match dialog ?v with _ => _ end] => destruct (dialog v)
           | |- context [match menu ?v with _ => _ end] => destruct (menu v)
           | |- context [match nth_error ?l ?i with _ => _ end] =>
               destruct (nth_error l i)
           end;
    unfold_handlers; split_answers;
    try exact Hc;
    unfold coherent in *; simpl in *;
    intuition (try congruence; try discriminate).
Qed.

(** Every world of [reachable] is one of [reachable_pending]. *)
Lemma reachable_is_pending w : reachable w -> reachable_pending w.
Proof.
  induction 1; [apply pending_mount | now apply pending_dispatch
                | now apply pending_props | now apply pending_env].
Qed.

(** X2. The actions menu is anchored exactly when a version is selected for
    it, and outside compare mode no version is selected. Both hold in every
    world the component can reach, also while awaited calls are pending
    between interactions: the two pairs of cells are only written together,
    in code that runs without an [await] in between. *)
Theorem reachable_coherent w :
  reachable_pending w ->
  (menuAnchorEl (w_state w) = None <-> selectedVersionForMenu (w_state w) = None)
  /\ (compareMode (w_state w) = false -> selectedVersions (w_state w) = []).
Proof.
  intros Hreach. change (coherent (w_state w)).
  induction Hreach as [p e | w ev _ IH | w p _ IH | w e _ IH | w l _ IH
                       | w vs d l e _ IH | w _ IH];
    cbn [w_state]; try exact IH.
  - unfold coherent; simpl; tauto.
  - unfold exec. rewrite dispatch_spec.
    destruct (render (w_props w) (w_state w)) as [v|]; [|exact IH].
    now apply reaction_coherent.
  - destruct IH as [_ Hsel]. unfold coherent. cbn. split; [tauto | exact Hsel].
Qed.

(** *** The handlers of the menu and of compare mode, by the answer of the
    environment *)

(** [handleCompareVersions] with two versions selected, by the answer of the
    store. *)
Lemma handleCompareVersions_spec w a b :
  selectedVersions (w_state w) = [a; b] ->
  let p := w_props w in
  let called := CallCompareVersions (chatId p) a b (role p) in
  handleCompareVersions w
  = match compareVersions (chatId p) a b (role p) (w_env w) with
    | (Returned _, e') =>
        (Returned tt,
         mkWorld p (w_state w) e'
                 (w_log w ++ [called; ConsoleLog (js "Version comparison:")]))
    | (Thrown err, e') =>
        (Returned tt,
         mkWorld p
                 (with_error
                    (fun _ => Some (or_else (message err) (js "Failed to compare versions")))
                    (w_state w))
                 e' (w_log w ++ [called]))
    end.
Proof.
  intros Hsel p called. subst p called.
  unfold handleCompareVersions, bind at 1 2, props, state. cbv beta iota.
  rewrite Hsel. unfold try_catch, bind, call, emit, setError, modify.
  destruct (compareVersions (chatId (w_props w)) a b (role (w_props w)) (w_env w))
    as [[[]|err] e0]; cbn [w_props w_state w_env w_log]; [|reflexivity].
  now rewrite <- app_assoc.
Qed.

(** X3. [compareSelected()] ([handleCompareVersions]) calls the store only
    when exactly two versions are selected, and then with the two versions in
    the order they were selected. With any other selection it returns with the
    world unchanged. When the store returns, the state is unchanged and the
    result is only logged to the console; when it throws, [error] is set to a
    non-empty message and nothing else changes. *)
Theorem compare_selected_outcomes w :
  let p := w_props w in
  let sel := selectedVersions (w_state w) in
  let w' := exec handleCompareVersions w in
  (List.length sel <> 2%nat -> handleCompareVersions w = (Returned tt, w))
  /\ (forall a b, sel = [a; b] ->
      let called := CallCompareVersions (chatId p) a b (role p) in
      let compare := compareVersions (chatId p) a b (role p) (w_env w) in
      (forall e', compare = (Returned tt, e') ->
         w_log w' = w_log w ++ [called; ConsoleLog (js "Version comparison:")]
         /\ w_state w' = w_state w)
      /\ (forall err e', compare = (Thrown err, e') ->
         w_log w' = w_log w ++ [called]
         /\ (exists msg, error (w_state w') = Some msg /\ truthy msg = true)
         /\ with_error (fun _ => error (w_state w)) (w_state w') = w_state w)).
Proof.
  intros p sel w'. subst p sel w'. split.
  - intros Hlen. unfold handleCompareVersions, bind, props, state, ret.
    destruct (selectedVersions (w_state w)) as [|a [|b [|c l]]];
      try reflexivity. now elim Hlen.
  - intros a b Hsel. cbv zeta.
    unfold exec. rewrite (handleCompareVersions_spec w Hsel).
    destruct (compareVersions (chatId (w_props w)) a b (role (w_props w)) (w_env w))
      as [[[]|err] e0]; cbn [fst snd w_log w_state w_props w_env]; split.
    + intros e' _. split; reflexivity.
    + intros err e' Heq. discriminate Heq.
    + intros e' Heq. discriminate Heq.
    + intros err' e' Heq. injection Heq as <- _.
      split; [reflexivity|]. split.
      * eexists; split; [reflexivity | now apply or_else_truthy].
      * now destruct (w_state w).
Qed.

(** X4. [copyVersionContent] ([handleCopyVersion]) writes the given text to
    the clipboard. When the write succeeds the actions menu closes; when it
    fails the failure is only logged to the console: [error] and the rest of
    the state are untouched and the menu stays open. *)
Theorem copy_version_outcomes w (text : jsstring) :
  let w' := exec (handleCopyVersion text) w in
  let write := clipboardWriteText text (w_env w) in
  returns (handleCopyVersion text) w = true
  /\ (forall e', write = (Returned tt, e') ->
      w_log w' = w_log w ++ [CallClipboardWriteText text]
      /\ menuAnchorEl (w_state w') = None
      /\ selectedVersionForMenu (w_state w') = None
      /\ error (w_state w') = error (w_state w))
  /\ (forall err e', write = (Thrown err, e') ->
      w_log w' = w_log w ++ [CallClipboardWriteText text;
                             ConsoleError (js "Failed to copy content:")]
      /\ w_state w' = w_state w).
Proof.
  intros w' write. subst w' write.
  unfold returns, exec, handleCopyVersion, handleMenuClose, try_catch, bind, call,
    emit, setMenuAnchorEl, setSelectedVersionForMenu, modify.
  destruct (clipboardWriteText text (w_env w)) as [[[]|err] e0];
    cbn [fst snd w_log w_state w_props w_env]; (split; [reflexivity|]); split.
  - intros e' _. repeat split; reflexivity.
  - intros err e' Heq. discriminate Heq.
  - intros e' Heq. discriminate Heq.
  - intros err' e' _. rewrite <- app_assoc. split; reflexivity.
Qed.

(** [handleDeleteVersion] with a version selected for the menu, by the
    answer of the store. *)
Lemma handleDeleteVersion_spec w n (v : ChatVersion) :
  selectedVersionForMenu (w_state w) = Some v ->
  let p := w_props w in
  let called := CallDeleteVersion (chatId p) n (role p) in
  handleDeleteVersion n w
  = match deleteVersion (chatId p) n (role p) (w_env w) with
    | (Returned _, e') =>
        (Returned tt,
         exec handleMenuClose
              (exec loadVersions
                    (mkWorld p (w_state w) e' (w_log w ++ [called]))))
    | (Thrown err, e') =>
        (Returned tt,
         mkWorld p
                 (with_error
                    (fun _ => Some (or_else (message err) (js "Failed to delete version")))
                    (w_state w))
                 e' (w_log w ++ [called]))
    end.
Proof.
  intros Hsel p called. subst p called.
  unfold handleDeleteVersion, bind at 1 2, props, state. cbv beta iota.
  rewrite Hsel. unfold try_catch, bind at 1 2, call at 1.
  destruct (deleteVersion (chatId (w_props w)) n (role (w_props w)) (w_env w))
    as [[[]|err] e0]; cbn [w_props w_state w_env w_log].
  - set (w1 := mkWorld (w_props w) (w_state w) e0 _).
    pose proof (returns_loadVersions w1) as Hret. unfold returns in Hret.
    unfold exec at 2. destruct (loadVersions w1) as [[[]|err] w2];
      [|discriminate Hret].
    reflexivity.
  - reflexivity.
Qed.

(** X5. [deleteVersion(n)] ([handleDeleteVersion]) with a version selected
    for the menu calls the store's delete for [n] first. If the store returns,
    the handler re-runs [refresh()] and then closes the menu, whatever the
    refresh gave; with a [chatId] the next call logged is the list call. If
    the store throws, there is no refresh: nothing else is logged, [error] is
    a non-empty message, and the cached versions and the menu are as they
    were. The handler never throws. *)
Theorem delete_version_outcomes w n (v : ChatVersion) :
  selectedVersionForMenu (w_state w) = Some v ->
  let p := w_props w in
  let called := CallDeleteVersion (chatId p) n (role p) in
  let delete := deleteVersion (chatId p) n (role p) (w_env w) in
  let w' := exec (handleDeleteVersion n) w in
  returns (handleDeleteVersion n) w = true
  /\ (forall e', delete = (Returned tt, e') ->
      w' = exec handleMenuClose
                (exec loadVersions (mkWorld p (w_state w) e' (w_log w ++ [called])))
      /\ menuAnchorEl (w_state w') = None
      /\ selectedVersionForMenu (w_state w') = None
      /\ (truthy (chatId p) = true ->
          exists rest,
            w_log w' = w_log w ++ [called; CallGetChatVersions (chatId p) (role p) 50]
                             ++ rest))
  /\ (forall err e', delete = (Thrown err, e') ->
      w_log w' = w_log w ++ [called]
      /\ (exists msg, error (w_state w') = Some msg /\ truthy msg = true)
      /\ versions (w_state w') = versions (w_state w)
      /\ menuAnchorEl (w_state w') = menuAnchorEl (w_state w)
      /\ selectedVersionForMenu (w_state w') = Some v).
Proof.
  intros Hsel p called delete w'. subst w' delete called p.
  unfold returns, exec.
  rewrite (handleDeleteVersion_spec w n Hsel).
  destruct (deleteVersion (chatId (w_props w)) n (role (w_props w)) (w_env w))
    as [[[]|err] e0]; cbn [fst snd]; (split; [reflexivity|]); split.
  - intros e' Heq. injection Heq as <-.
    split; [reflexivity|]. split; [reflexivity|]. split; [reflexivity|].
    intros Hchat.
    set (w1 := mkWorld (w_props w) (w_state w) e0 _).
    assert (Hchat1 : truthy (chatId (w_props w1)) = true) by exact Hchat.
    unfold exec. rewrite (loadVersions_spec w1 Hchat1).
    destruct (getChatVersions (chatId (w_props w1)) (role (w_props w1)) 50 (w_env w1))
      as [[vs|err] e1];
      unfold handleMenuClose, bind, setMenuAnchorEl, setSelectedVersionForMenu, modify;
      cbn [snd w_log w1].
    + exists []. rewrite <- app_assoc. reflexivity.
    + exists [ConsoleError (js "Failed to load versions:")].
      rewrite <- app_assoc. reflexivity.
  - intros err e' Heq. discriminate Heq.
  - intros e' Heq. discriminate Heq.
  - intros err' e' Heq. injection Heq as <- _. cbn [w_log w_state].
    split; [reflexivity|]. split.
    + eexists; split; [reflexivity | now apply or_else_truthy].
    + rewrite <- Hsel. now destruct (w_state w).
Qed.

(** X6. [openBrowser()] ([handleOpenDialog]) always leaves the dialog open,
    whatever the refresh it triggers gives, and never throws; with a [chatId]
    it issues exactly one list call, for the component's role with limit 50,
    and leaves [loading] false. *)
Theorem open_browser_outcomes w :
  let p := w_props w in
  let w' := exec handleOpenDialog w in
  returns handleOpenDialog w = true
  /\ dialogOpen (w_state w') = true
  /\ (truthy (chatId p) = false ->
      w_log w' = w_log w
      /\ with_dialogOpen (fun _ => dialogOpen (w_state w)) (w_state w') = w_state w)
  /\ (truthy (chatId p) = true ->
      loading (w_state w') = false
      /\ List.filter is_list_call (w_log w')
         = List.filter is_list_call (w_log w)
           ++ [CallGetChatVersions (chatId p) (role p) 50]).
Proof.
  intros p w'. subst p w'.
  set (w1 := mkWorld (w_props w) (with_dialogOpen (fun _ => true) (w_state w))
                     (w_env w) (w_log w)).
  assert (Hopen : handleOpenDialog w = loadVersions w1) by reflexivity.
  unfold returns, exec. rewrite Hopen.
  destruct (truthy (chatId (w_props w))) eqn:Hchat.
  - assert (Hchat1 : truthy (chatId (w_props w1)) = true) by exact Hchat.
    rewrite (loadVersions_spec w1 Hchat1).
    destruct (getChatVersions (chatId (w_props w1)) (role (w_props w1)) 50 (w_env w1))
      as [[vs|err] e1]; cbn [fst snd w_state w_log w1 dialogOpen loading with_dialogOpen];
      (split; [reflexivity|]); (split; [reflexivity|]);
      (split; [intros Hf; discriminate Hf|]); intros _;
      (split; [reflexivity|]); rewrite filter_app; reflexivity.
  - assert (Hrun : loadVersions w1 = (Returned tt, w1)).
    { unfold loadVersions, bind, props. cbn [w_props w1]. now rewrite Hchat. }
    rewrite Hrun. cbn [fst snd w_state w_log w1 dialogOpen with_dialogOpen].
    split; [reflexivity|]. split; [reflexivity|]. split.
    + intros _. split; [reflexivity|]. now destruct (w_state w).
    + intros Hf. discriminate Hf.
Qed.

(** *** Stepping through the versions *)

Lemma interact_handlePreviousVersion w :
  w_props (interact handlePreviousVersion w)
  = with_currentVersion
      (if 1 <? currentVersion (w_props w)
       then currentVersion (w_props w) - 1
       else totalVersions (w_props w)) (w_props w).
Proof.
  unfold interact, exec. rewrite handlePreviousVersion_spec. reflexivity.
Qed.

(** X7. With [1 <= currentVersion <= totalVersions] and the host adopting
    what is requested, a step keeps the version within [1..totalVersions],
    moves to a different version as soon as there are two, and [stepNext()]
    and [stepPrevious()] undo each other. *)
Theorem steps_stay_in_range_and_invert w :
  1 <= currentVersion (w_props w) <= totalVersions (w_props w) ->
  let c := currentVersion (w_props w) in
  let t := totalVersions (w_props w) in
  let after h w0 := currentVersion (w_props (interact h w0)) in
  1 <= after handleNextVersion w <= t
  /\ 1 <= after handlePreviousVersion w <= t
  /\ (1 < t -> after handleNextVersion w <> c /\ after handlePreviousVersion w <> c)
  /\ after handlePreviousVersion (interact handleNextVersion w) = c
  /\ after handleNextVersion (interact handlePreviousVersion w) = c.
Proof.
  intros Hrange c t after. subst after. cbv beta.
  repeat (progress (rewrite ?interact_handlePreviousVersion,
                            ?interact_handleNextVersion;
                    cbn [currentVersion totalVersions with_currentVersion])).
  fold c t in Hrange. fold c t. clearbody c t.
  repeat match goal with
         | |- context [?a <? ?b] => destruct (Z.ltb_spec a b)
         end; lia.
Qed.

(** The version after [k] steps forward from a version in range. *)
Lemma repeat_next_position (k : nat) : forall w,
  1 <= currentVersion (w_props w) <= totalVersions (w_props w) ->
  currentVersion (w_props (repeat_interact k handleNextVersion w))
  = (currentVersion (w_props w) - 1 + Z.of_nat k) mod totalVersions (w_props w) + 1.
Proof.
  induction k as [|k IH]; intros w Hrange.
  - cbn [repeat_interact]. rewrite Z.add_0_r, Z.mod_small; lia.
  - cbn [repeat_interact].
    pose proof (interact_handleNextVersion w) as Hp.
    rewrite IH; rewrite Hp; cbn [currentVersion totalVersions with_currentVersion].
    + destruct (Z.ltb_spec (currentVersion (w_props w)) (totalVersions (w_props w))).
      * f_equal; f_equal; lia.
      * replace (currentVersion (w_props w)) with (totalVersions (w_props w)) by lia.
        f_equal.
        replace (totalVersions (w_props w) - 1 + Z.of_nat (S k))
          with (Z.of_nat k + 1 * totalVersions (w_props w)) by lia.
        rewrite Z_mod_plus_full. f_equal; lia.
    + destruct (Z.ltb_spec (currentVersion (w_props w)) (totalVersions (w_props w)));
        lia.
Qed.

(** The version after [k] steps backward from a version in range. *)
Lemma repeat_previous_position (k : nat) : forall w,
  1 <= currentVersion (w_props w) <= totalVersions (w_props w) ->
  currentVersion (w_props (repeat_interact k handlePreviousVersion w))
  = (currentVersion (w_props w) - 1 - Z.of_nat k) mod totalVersions (w_props w) + 1.
Proof.
  induction k as [|k IH]; intros w Hrange.
  - cbn [repeat_interact]. rewrite Z.sub_0_r, Z.mod_small; lia.
  - cbn [repeat_interact].
    pose proof (interact_handlePreviousVersion w) as Hp.
    rewrite IH; rewrite Hp; cbn [currentVersion totalVersions with_currentVersion].
    + destruct (Z.ltb_spec 1 (currentVersion (w_props w))).
      * f_equal; f_equal; lia.
      * replace (currentVersion (w_props w)) with 1 by lia.
        f_equal.
        replace (totalVersions (w_props w) - 1 - Z.of_nat k)
          with (1 - 1 - Z.of_nat (S k) + 1 * totalVersions (w_props w)) by lia.
        now rewrite Z_mod_plus_full.
    + destruct (Z.ltb_spec 1 (currentVersion (w_props w))); lia.
Qed.

(** X8. From any version in [1..totalVersions], [totalVersions] presses of
    next, or of previous, the host adopting each request, come back to the
    version they started from; after [k] presses of next the version is
    [(currentVersion - 1 + k) mod totalVersions + 1]. *)
Theorem full_cycle_returns w :
  1 <= currentVersion (w_props w) <= totalVersions (w_props w) ->
  let c := currentVersion (w_props w) in
  let t := totalVersions (w_props w) in
  currentVersion (w_props (repeat_interact (Z.to_nat t) handleNextVersion w)) = c
  /\ currentVersion (w_props (repeat_interact (Z.to_nat t) handlePreviousVersion w)) = c
  /\ forall k : nat,
       currentVersion (w_props (repeat_interact k handleNextVersion w))
       = (c - 1 + Z.of_nat k) mod t + 1.
Proof.
  intros Hrange c t. split; [|split].
  - rewrite repeat_next_position by exact Hrange. fold c t.
    rewrite Z2Nat.id by lia.
    replace (c - 1 + t) with (c - 1 + 1 * t) by lia.
    rewrite Z_mod_plus_full, Z.mod_small; lia.
  - rewrite repeat_previous_position by exact Hrange. fold c t.
    rewrite Z2Nat.id by lia.
    replace (c - 1 - t) with (c - 1 + (-1) * t) by lia.
    rewrite Z_mod_plus_full, Z.mod_small; lia.
  - intros k. now apply repeat_next_position.
Qed.

(** *** What the rendered control lets through *)

Lemma render_some (p : Props) (s : State) :
  render p s <> None ->
  render p s
  = Some (mkView (disabled p) (currentVersion p, totalVersions p)
                 (if dialogOpen s then Some (render_dialog p s) else None)
                 (match menuAnchorEl s with
                  | Some _ => Some (render_menu s)
                  | None => None
                  end)).
Proof.
  unfold render.
  destruct (negb (hasMultipleVersions p) && (totalVersions p <=? 1));
    [intros H; now elim H | reflexivity].
Qed.

(** Whether the control is rendered depends on the props only. *)
Lemma render_absent_any_state (p : Props) (s s' : State) :
  render p s = None -> render p s' = None.
Proof.
  unfold render.
  destruct (negb (hasMultipleVersions p) && (totalVersions p <=? 1));
    [reflexivity | discriminate].
Qed.

(** The rows on screen are the cached versions, in order, when the dialog
    is open and not loading; otherwise there is no row. *)
Lemma rows_rendered (p : Props) (s : State) (v : View) :
  render p s = Some v ->
  rows v = if dialogOpen s && negb (loading s)
           then List.map (render_item p s) (versions s)
           else [].
Proof.
  intros Hv. rewrite render_some in Hv by (rewrite Hv; discriminate).
  injection Hv as <-. unfold rows. cbn [dialog].
  destruct (dialogOpen s); [|reflexivity].
  cbn [dialog_body render_dialog andb].
  destruct (loading s); [reflexivity|]. cbn [negb].
  destruct (versions s); reflexivity.
Qed.

(** X9. A control that is disabled, with the dialog and the actions menu
    closed, is inert: no interaction changes the state or reaches the store or
    the host. *)
Theorem disabled_control_is_inert w (ev : UIEvent) :
  disabled (w_props w) = true ->
  dialogOpen (w_state w) = false ->
  menuAnchorEl (w_state w) = None ->
  dispatch ev w = (Returned tt, w).
Proof.
  intros Hd Ho Hm. rewrite dispatch_spec.
  destruct (render (w_props w) (w_state w)) as [v|] eqn:Hv; [|reflexivity].
  pose proof (rows_rendered _ _ Hv) as Hrows. rewrite Ho in Hrows. cbn in Hrows.
  rewrite render_some in Hv by (rewrite Hv; discriminate).
  rewrite Hd, Ho, Hm in Hv. injection Hv as <-.
  destruct ev; cbn [reaction controls_disabled dialog menu]; try reflexivity;
    rewrite Hrows; now destruct index.
Qed.

(** X10. In normal mode a click on the [i]-th row of the open, loaded list
    runs [selectVersion] for the version number of the [i]-th cached version,
    so the first call it logs is the store's switch to that version; there is
    no row past the end of the cache. While the list is loading, or the dialog
    is closed, a click on a row or on its menu button does nothing. *)
Theorem row_click_selects_that_row w (i : nat) :
  render (w_props w) (w_state w) <> None ->
  compareMode (w_state w) = false ->
  let p := w_props w in
  let s := w_state w in
  (dialogOpen s = true -> loading s = false ->
   (forall ver, nth_error (versions s) i = Some ver ->
      dispatch (ClickVersionRow i) w = handleVersionSelect (versionNumber ver) w
      /\ exists rest,
           w_log (exec (dispatch (ClickVersionRow i)) w)
           = w_log w ++ CallSwitchToVersion (chatId p) (versionNumber ver) (role p)
                   :: rest)
   /\ (nth_error (versions s) i = None ->
       dispatch (ClickVersionRow i) w = (Returned tt, w)))
  /\ (dialogOpen s = false \/ loading s = true ->
      forall target,
        dispatch (ClickVersionRow i) w = (Returned tt, w)
        /\ dispatch (ClickRowMenu i target) w = (Returned tt, w)).
Proof.
  intros Hrender Hmode p s. subst p s.
  destruct (render (w_props w) (w_state w)) as [v|] eqn:Hv; [|now elim Hrender].
  pose proof (rows_rendered _ _ Hv) as Hrows.
  split.
  - intros Ho Hl. rewrite Ho, Hl in Hrows. cbn [andb negb] in Hrows. split.
    + intros ver Hnth.
      assert (Hrun : dispatch (ClickVersionRow i) w
                     = handleVersionSelect (versionNumber ver) w).
      { rewrite dispatch_spec, Hv. cbn [reaction]. rewrite Hrows, nth_error_map, Hnth.
        cbn [option_map item_version render_item].
        unfold onClickRow, bind, state. now rewrite Hmode. }
      split; [exact Hrun|].
      unfold exec. rewrite Hrun, handleVersionSelect_spec.
      destruct (switchToVersion (chatId (w_props w)) (versionNumber ver)
                                (role (w_props w)) (w_env w)) as [[[]|err] e'];
        cbn [snd w_log]; eexists; reflexivity.
    + intros Hnth. rewrite dispatch_spec, Hv. cbn [reaction].
      now rewrite Hrows, nth_error_map, Hnth.
  - intros Hclosed target.
    assert (Hnone : rows v = []).
    { rewrite Hrows. destruct Hclosed as [-> | ->]; [reflexivity|].
      now destruct (dialogOpen (w_state w)). }
    rewrite !dispatch_spec, Hv. cbn [reaction]. rewrite Hnone.
    now destruct i.
Qed.

(** A click on a row in compare mode, on the open and loaded list. *)
Lemma click_row_compare w (i : nat) (ver : ChatVersion) :
  render (w_props w) (w_state w) <> None ->
  dialogOpen (w_state w) = true ->
  loading (w_state w) = false ->
  compareMode (w_state w) = true ->
  nth_error (versions (w_state w)) i = Some ver ->
  exec (dispatch (ClickVersionRow i)) w
  = mkWorld (w_props w)
            (with_selectedVersions
               (fun _ => toggled (versionNumber ver) (selectedVersions (w_state w)))
               (w_state w))
            (w_env w) (w_log w).
Proof.
  intros Hrender Ho Hl Hmode Hnth.
  destruct (render (w_props w) (w_state w)) as [v|] eqn:Hv; [|now elim Hrender].
  pose proof (rows_rendered _ _ Hv) as Hrows.
  rewrite Ho, Hl in Hrows. cbn [andb negb] in Hrows.
  unfold exec. rewrite dispatch_spec, Hv. cbn [reaction].
  rewrite Hrows, nth_error_map, Hnth. cbn [option_map item_version render_item].
  unfold onClickRow, bind, state. rewrite Hmode.
  now rewrite handleVersionToggleForCompare_spec.
Qed.

(** X11. Comparing two versions end to end: in compare mode with nothing
    selected, clicking the row of one version, then the row of another with a
    different number, selects the two in that order and shows the Compare
    Selected button; clicking it calls the store's compare with the two
    version numbers in the order of the clicks. *)
Theorem compare_two_rows w (i j : nat) (va vb : ChatVersion) :
  render (w_props w) (w_state w) <> None ->
  dialogOpen (w_state w) = true ->
  loading (w_state w) = false ->
  compareMode (w_state w) = true ->
  selectedVersions (w_state w) = [] ->
  nth_error (versions (w_state w)) i = Some va ->
  nth_error (versions (w_state w)) j = Some vb ->
  versionNumber va <> versionNumber vb ->
  let picked := exec (dispatch (ClickVersionRow j)) (exec (dispatch (ClickVersionRow i)) w) in
  selectedVersions (w_state picked) = [versionNumber va; versionNumber vb]
  /\ w_log picked = w_log w
  /\ (exists v d, render (w_props picked) (w_state picked) = Some v
                  /\ dialog v = Some d /\ compare_selected_button d = true)
  /\ exists rest,
       w_log (exec (dispatch ClickCompareSelected) picked)
       = w_log w
         ++ CallCompareVersions (chatId (w_props w)) (versionNumber va)
                                (versionNumber vb) (role (w_props w))
         :: rest.
Proof.
  intros Hrender Ho Hl Hmode Hsel Hi Hj Hneq picked.
  assert (Hpicked : picked
                    = mkWorld (w_props w)
                              (with_selectedVersions
                                 (fun _ => [versionNumber va; versionNumber vb])
                                 (w_state w))
                              (w_env w) (w_log w)).
  { unfold picked.
    rewrite (click_row_compare w i Hrender Ho Hl Hmode Hi).
    rewrite (@click_row_compare _ j vb); cbn [w_props w_state w_env w_log];
      try assumption.
    - f_equal. unfold with_selectedVersions. cbn. rewrite Hsel.
      unfold toggled, includes. cbn.
      apply Z.eqb_neq in Hneq. rewrite Z.eqb_sym in Hneq. now rewrite Hneq.
    - intros Hnone. apply Hrender. exact (@render_absent_any_state _ _ (w_state w) Hnone). }
  clearbody picked. subst picked. cbn [w_state w_log w_props selectedVersions
                                       with_selectedVersions].
  assert (Hrender' : render (w_props w)
                            (with_selectedVersions
                               (fun _ => [versionNumber va; versionNumber vb])
                               (w_state w)) <> None).
  { intros Hnone. apply Hrender. exact (@render_absent_any_state _ _ (w_state w) Hnone). }
  split; [reflexivity|]. split; [reflexivity|]. split.
  - eexists. eexists. split; [apply render_some; exact Hrender'|].
    cbn [dialog with_selectedVersions dialogOpen]. rewrite Ho.
    split; [reflexivity|].
    cbn [compare_selected_button render_dialog compareMode selectedVersions
         with_selectedVersions].
    now rewrite Hmode.
  - unfold exec. rewrite dispatch_spec. cbn [w_props w_state].
    rewrite (@render_some _ _ Hrender').
    cbn [reaction dialog with_selectedVersions dialogOpen]. rewrite Ho.
    cbn [compare_selected_button render_dialog compareMode selectedVersions
         with_selectedVersions].
    rewrite Hmode. cbn [andb List.length Z.of_nat Z.eqb Pos.of_succ_nat Pos.succ Pos.eqb].
    rewrite (@handleCompareVersions_spec _ (versionNumber va) (versionNumber vb))
      by reflexivity.
    cbn [w_props w_env w_log w_state].
    destruct (compareVersions (chatId (w_props w)) (versionNumber va)
                              (versionNumber vb) (role (w_props w)) (w_env w))
      as [[[]|err] e']; cbn [snd w_log]; eexists; reflexivity.
Qed.

End WithEnvironment.

(** *** The earlier revision *)

Module V1.

Import NavigatorV1.

Section WithEnvironment.

Context {E : Type} {env : Environment E}.

(** X12. In the earlier revision, [loadVersions] with a [chatId] asks the
    host's [onLoadVersions] once. If it returns, the list replaces [versions];
    if it throws, [versions] is left as it was and the failure is only logged
    to the console. Either way the handler returns with [loading] false and
    the dialog as it was. *)
Theorem load_versions_outcomes (w : World Props State E) :
  truthy (chatId (w_props w)) = true ->
  let load := onLoadVersions (chatId (w_props w)) (w_env w) in
  let w' := exec loadVersions w in
  returns loadVersions w = true
  /\ loading (w_state w') = false
  /\ dialogOpen (w_state w') = dialogOpen (w_state w)
  /\ (forall vs e', load = (Returned vs, e') ->
      versions (w_state w') = vs
      /\ w_log w' = w_log w ++ [CallOnLoadVersions (chatId (w_props w))])
  /\ (forall err e', load = (Thrown err, e') ->
      versions (w_state w') = versions (w_state w)
      /\ w_log w' = w_log w ++ [CallOnLoadVersions (chatId (w_props w));
                                ConsoleError (js "Failed to load versions:")]).
Proof.
  intros Hchat load w'. subst load w'.
  unfold returns, exec, loadVersions, bind at 1 4 7 10 13 16 19, props.
  cbv beta iota. rewrite Hchat. cbn [negb].
  unfold try_catch_finally, try_catch, bind, call, emit, setLoading, setVersions,
    modify. cbn [w_env w_props w_state w_log].
  destruct (onLoadVersions (chatId (w_props w)) (w_env w)) as [[vs|err] e0];
    cbn [fst snd w_state w_log loading dialogOpen versions];
    (split; [reflexivity|]); (split; [reflexivity|]); (split; [reflexivity|]);
    split.
  - intros vs' e' Heq. injection Heq as <- _. split; reflexivity.
  - intros err e' Heq. discriminate Heq.
  - intros vs' e' Heq. discriminate Heq.
  - intros err' e' _. rewrite <- app_assoc. split; reflexivity.
Qed.

End WithEnvironment.

End V1.

(** *** Instances on the scripted environment *)

Import Scripted Scenario.

Lemma reachable_coherent_witness :
  reachable_pending menu_opened_loading
  /\ loading (w_state menu_opened_loading) = true
  /\ menuAnchorEl (w_state menu_opened_loading) <> None
  /\ selectedVersionForMenu (w_state menu_opened_loading) <> None
  /\ selectedVersions (w_state menu_opened_loading) = [].
Proof.
  assert (Hreach : reachable_pending menu_opened_loading).
  { unfold menu_opened_loading. apply pending_settle.
    unfold menu_opened. repeat apply pending_dispatch. apply pending_mount. }
  destruct (reachable_coherent Hreach) as (Hmenu & Hsel).
  split; [exact Hreach|]. split; [reflexivity|]. split; [discriminate|].
  split.
  - intros Hnone. apply Hmenu in Hnone. discriminate Hnone.
  - apply Hsel. reflexivity.
Defined.

Lemma compare_selected_outcomes_witness :
  handleCompareVersions (comparing [1]) = (Returned tt, comparing [1])
  /\ w_log (exec handleCompareVersions (comparing [3; 1]))
     = [CallCompareVersions (js "chat-1") 3 1 user; ConsoleLog (js "Version comparison:")].
Proof.
  destruct (@compare_selected_outcomes _ _ (comparing [1])) as [Hskip _].
  destruct (@compare_selected_outcomes _ _ (comparing [3; 1])) as [_ Hcall].
  split.
  - apply Hskip. discriminate.
  - destruct (Hcall 3 1 eq_refl) as [Hok _].
    destruct (Hok (mkEnv [] three) eq_refl) as [Hlog _]. exact Hlog.
Defined.

Lemma copy_version_outcomes_witness :
  w_state (exec (handleCopyVersion (js "third")) menu_opened_failing)
  = w_state menu_opened_failing
  /\ menuAnchorEl (w_state (exec (handleCopyVersion (js "third")) menu_opened)) = None.
Proof.
  destruct (@copy_version_outcomes _ _ menu_opened_failing (js "third"))
    as (_ & _ & Hfail).
  destruct (@copy_version_outcomes _ _ menu_opened (js "third")) as (_ & Hok & _).
  split.
  - destruct (Hfail network_error (mkEnv [] three) eq_refl) as [_ Hs]. exact Hs.
  - destruct (Hok (mkEnv [] three) eq_refl) as (_ & Hm & _). exact Hm.
Defined.

Lemma delete_version_outcomes_witness :
  selectedVersionForMenu (w_state menu_opened) = Some (version 3 false "third")
  /\ menuAnchorEl (w_state (exec (handleDeleteVersion 3) menu_opened)) = None
  /\ w_log (exec (handleDeleteVersion 3) menu_opened_failing)
     = w_log menu_opened_failing ++ [CallDeleteVersion (js "chat-1") 3 user]
  /\ selectedVersionForMenu (w_state (exec (handleDeleteVersion 3) menu_opened_failing))
     = Some (version 3 false "third").
Proof.
  destruct (@delete_version_outcomes _ _ menu_opened 3 _ eq_refl) as (_ & Hok & _).
  destruct (@delete_version_outcomes _ _ menu_opened_failing 3 _ eq_refl)
    as (_ & _ & Hfail).
  destruct (Hok (mkEnv [] three) eq_refl) as (_ & Hm & _).
  destruct (Hfail network_error (mkEnv [] three) eq_refl) as (Hlog & _ & _ & _ & Hsel).
  split; [reflexivity|]. split; [exact Hm|]. split; [exact Hlog | exact Hsel].
Defined.

Lemma open_browser_outcomes_witness :
  dialogOpen (w_state (exec handleOpenDialog (mounted 2 [false]))) = true
  /\ loading (w_state (exec handleOpenDialog (mounted 2 [false]))) = false
  /\ w_log (exec handleOpenDialog no_chat) = w_log no_chat.
Proof.
  destruct (@open_browser_outcomes _ _ (mounted 2 [false])) as (_ & Hopen & _ & Hchat).
  destruct (@open_browser_outcomes _ _ no_chat) as (_ & _ & Hnone & _).
  split; [exact Hopen|]. split.
  - destruct (Hchat eq_refl) as [Hl _]. exact Hl.
  - destruct (Hnone eq_refl) as [Hlog _]. exact Hlog.
Defined.

Lemma steps_stay_in_range_and_invert_witness :
  1 <= currentVersion (w_props (browsing 3 [])) <= totalVersions (w_props (browsing 3 []))
  /\ currentVersion (w_props (interact handleNextVersion (browsing 3 []))) <> 3
  /\ currentVersion
       (w_props (interact handlePreviousVersion
                          (interact handleNextVersion (browsing 3 [])))) = 3.
Proof.
  assert (Hrange : 1 <= currentVersion (w_props (browsing 3 []))
                   <= totalVersions (w_props (browsing 3 [])))
    by (split; discriminate).
  destruct (steps_stay_in_range_and_invert (browsing 3 []) Hrange)
    as (_ & _ & Hmove & Hback & _).
  split; [exact Hrange|]. split; [|exact Hback].
  apply Hmove. reflexivity.
Defined.

Lemma full_cycle_returns_witness :
  1 <= currentVersion (w_props (browsing 2 [])) <= totalVersions (w_props (browsing 2 []))
  /\ currentVersion (w_props (repeat_interact 3 handleNextVersion (browsing 2 []))) = 2
  /\ currentVersion (w_props (repeat_interact 3 handlePreviousVersion (browsing 2 []))) = 2.
Proof.
  assert (Hrange : 1 <= currentVersion (w_props (browsing 2 []))
                   <= totalVersions (w_props (browsing 2 [])))
    by (split; discriminate).
  destruct (full_cycle_returns (browsing 2 []) Hrange) as (Hnext & Hprev & _).
  split; [exact Hrange|]. split; [exact Hnext | exact Hprev].
Defined.

Lemma disabled_control_is_inert_witness :
  disabled (w_props idle_disabled) = true
  /\ dispatch ClickNext idle_disabled = (Returned tt, idle_disabled)
  /\ dispatch ClickViewAll idle_disabled = (Returned tt, idle_disabled).
Proof.
  split; [reflexivity|].
  split; apply disabled_control_is_inert; reflexivity.
Defined.

Lemma row_click_selects_that_row_witness :
  render (w_props (browsing 2 [])) (w_state (browsing 2 [])) <> None
  /\ compareMode (w_state (browsing 2 [])) = false
  /\ dispatch (ClickVersionRow 2) (browsing 2 []) = handleVersionSelect 3 (browsing 2 [])
  /\ dispatch (ClickVersionRow 3) (browsing 2 []) = (Returned tt, browsing 2 []).
Proof.
  assert (Hrender : render (w_props (browsing 2 [])) (w_state (browsing 2 [])) <> None)
    by discriminate.
  destruct (@row_click_selects_that_row _ _ (browsing 2 []) 2%nat Hrender eq_refl)
    as [Hrow _].
  destruct (@row_click_selects_that_row _ _ (browsing 2 []) 3%nat Hrender eq_refl)
    as [Hpast _].
  split; [exact Hrender|]. split; [reflexivity|]. split.
  - destruct (Hrow eq_refl eq_refl) as [Hin _].
    destruct (Hin (version 3 false "third") eq_refl) as [Hrun _]. exact Hrun.
  - destruct (Hpast eq_refl eq_refl) as [_ Hout]. apply Hout. reflexivity.
Defined.

Lemma compare_two_rows_witness :
  let picked := exec (dispatch (ClickVersionRow 0))
                     (exec (dispatch (ClickVersionRow 2)) (comparing [])) in
  selectedVersions (w_state picked) = [3; 1]
  /\ exists rest,
       w_log (exec (dispatch ClickCompareSelected) picked)
       = CallCompareVersions (js "chat-1") 3 1 user :: rest.
Proof.
  intros picked.
  assert (Hrender : render (w_props (comparing [])) (w_state (comparing [])) <> None)
    by discriminate.
  assert (Hneq : versionNumber (version 3 false "third")
                 <> versionNumber (version 1 false "first")) by discriminate.
  destruct (@compare_two_rows _ _ (comparing []) 2%nat 0%nat _ _ Hrender
              eq_refl eq_refl eq_refl eq_refl eq_refl eq_refl Hneq)
    as (Hsel & _ & _ & Hcall).
  split; [exact Hsel | exact Hcall].
Defined.

Lemma load_versions_outcomes_witness :
  truthy (NavigatorV1.chatId (w_props (browsing_v1 [false]))) = true
  /\ NavigatorV1.versions (w_state (exec NavigatorV1.loadVersions (browsing_v1 [false])))
     = [version 1 true "first"]
  /\ NavigatorV1.versions (w_state (exec NavigatorV1.loadVersions (browsing_v1 [])))
     = three
  /\ NavigatorV1.loading (w_state (exec NavigatorV1.loadVersions (browsing_v1 [false])))
     = false.
Proof.
  destruct (@V1.load_versions_outcomes _ _ (browsing_v1 [false]) eq_refl)
    as (_ & Hl & _ & _ & Hfail).
  destruct (@V1.load_versions_outcomes _ _ (browsing_v1 []) eq_refl)
    as (_ & _ & _ & Hok & _).
  split; [reflexivity|]. split; [|split; [|exact Hl]].
  - destruct (Hfail network_error (mkEnv [] three) eq_refl) as [Hv _]. exact Hv.
  - destruct (Hok three (mkEnv [] three) eq_refl) as [Hv _]. exact Hv.
Defined.

End NavigatorMore.

(** ** More on the editing mediator *)

Module EditingMore.

Import Editing EditingFacts.

(** Leaving edit mode through [handleCancel]. *)
Lemma press_cancel_spec (w : Editor) :
  isEditing w = true ->
  press_cancel w
  = mkEditor (message_content w) (onEditMessage_given w) (message_loading w)
             false (message_content w) false (edit_calls w).
Proof.
  intros Hed. unfold press_cancel. rewrite Hed.
  assert (Hround : effects w (handleCancel w)
                   = mkEditor (message_content w) (onEditMessage_given w)
                              (message_loading w) false (message_content w) false
                              (edit_calls w)).
  { destruct w as [c g l e d h calls]. cbn in Hed. subst e.
    unfold effects, handleCancel, handleCancelEdit, setIsEditing, setHasChanges,
      setEditedContent.
    cbn [isEditing message_content editedContent hasChanges onEditMessage_given
         message_loading edit_calls].
    rewrite !strict_eq_refl. cbn [negb orb Bool.eqb].
    destruct (strict_eq d c); reflexivity. }
  rewrite settle_once; rewrite Hround; [reflexivity|].
  unfold settled. cbn. now rewrite strict_eq_refl.
Qed.

(** Entering edit mode. *)
Lemma startEdit_spec (w : Editor) :
  isEditing w = false -> message_loading w = false ->
  startEdit w
  = mkEditor (message_content w) (onEditMessage_given w) false
             true (message_content w) false (edit_calls w).
Proof.
  intros Hed Hl. unfold startEdit. rewrite Hed, Hl. cbn [negb andb].
  assert (Hround : effects w (handleStartEdit w)
                   = mkEditor (message_content w) (onEditMessage_given w) false
                              true (message_content w) false (edit_calls w)).
  { destruct w as [c g l e d h calls]. cbn in Hed, Hl. subst e l.
    unfold effects, handleStartEdit, setIsEditing, setHasChanges, setEditedContent.
    cbn [isEditing message_content editedContent hasChanges onEditMessage_given
         message_loading edit_calls].
    rewrite !strict_eq_refl. reflexivity. }
  rewrite settle_once; rewrite Hround; [reflexivity|].
  unfold settled. cbn. now rewrite strict_eq_refl.
Qed.

(** Saving with the draft that is in the field. *)
Lemma press_save_spec (w : Editor) :
  isEditing w = true -> settled w ->
  press_save w = saveEdit (editedContent w) w.
Proof.
  intros Hed Hset. unfold saveEdit.
  rewrite (type_draft_spec (editedContent w) Hed Hset).
  f_equal. unfold settled in Hset. destruct w as [c g l e d h calls].
  cbn in *. now subst.
Qed.

(** The Save button is disabled exactly when [handleSave] does nothing. *)
Lemma handleSave_disabled (w : Editor) :
  save_button_disabled w = true -> handleSave w = w.
Proof.
  unfold save_button_disabled, handleSave. intros H.
  destruct (truthy (trim (editedContent w))); destruct (hasChanges w);
    try reflexivity; discriminate H.
Qed.

(** X13. The keyboard does what the buttons do, and no more. In a settled
    editor, Ctrl+Enter and Cmd+Enter act as a click on Save, so they do
    nothing when Save is disabled; Escape acts as Cancel; any other key,
    including a bare Enter, leaves the editor as it is and is not prevented. *)
Theorem keyboard_follows_buttons (w : Editor) (ev : KeyEvent) :
  settled w ->
  (key ev = js "Enter" -> ctrlKey ev || metaKey ev = true ->
   press_key ev w = click_save w
   /\ (save_button_disabled w = true -> press_key ev w = w))
  /\ (key ev = js "Escape" -> press_key ev w = press_cancel w)
  /\ (key ev <> js "Escape" ->
      key ev <> js "Enter" \/ ctrlKey ev || metaKey ev = false ->
      press_key ev w = w /\ fst (handleKeyDown ev w) = false).
Proof.
  intros Hset.
  assert (Hidle : settle w w = w)
    by (rewrite settle_once; rewrite effects_settled; auto).
  split; [|split].
  - intros Hkey Hmod.
    assert (Hrun : press_key ev w = if isEditing w then settle w (handleSave w) else w).
    { unfold press_key, handleKeyDown. now rewrite Hkey, Hmod, strict_eq_refl. }
    rewrite Hrun. unfold click_save.
    destruct (isEditing w); [|auto].
    destruct (save_button_disabled w) eqn:Hdis; cbn [negb andb].
    + rewrite (handleSave_disabled w Hdis). auto.
    + split; [reflexivity | discriminate].
  - intros Hkey. unfold press_key, press_cancel, handleKeyDown.
    rewrite Hkey, strict_eq_refl.
    assert (Hne : strict_eq (js "Escape") (js "Enter") = false) by reflexivity.
    rewrite Hne. reflexivity.
  - intros Hesc Hother. apply strict_eq_false in Hesc.
    unfold press_key, handleKeyDown. rewrite Hesc.
    assert (Hsave : strict_eq (key ev) (js "Enter") && (ctrlKey ev || metaKey ev) = false).
    { destruct Hother as [Hk | Hm].
      - apply strict_eq_false in Hk. now rewrite Hk.
      - rewrite Hm. apply andb_false_r. }
    rewrite Hsave. cbn [snd fst]. rewrite Hidle.
    split; [now destruct (isEditing w) | reflexivity].
Qed.

(** Closes the case of an action that left the editor as it was. *)
Ltac same :=
  repeat match goal with |- _ /\ _ => split end;
  try assumption; try reflexivity; try (left; reflexivity).

(** One action keeps the editor settled, the message and the capabilities
    as they are, and calls the host at most once, with a text that is not
    empty, is trimmed, and is not the message. *)
Lemma act_step (a : Action) (w : Editor) :
  settled w ->
  let w' := act a w in
  settled w'
  /\ message_content w' = message_content w
  /\ onEditMessage_given w' = onEditMessage_given w
  /\ message_loading w' = message_loading w
  /\ (edit_calls w' = edit_calls w
      \/ exists t, edit_calls w' = edit_calls w ++ [t]
                   /\ onEditMessage_given w = true
                   /\ isEditing w = true
                   /\ t <> [] /\ trim t = t /\ t <> message_content w).
Proof.
  intros Hset.
  assert (Hsaved : forall draft, isEditing w = true ->
             let w' := saveEdit draft w in
             settled w' /\ message_content w' = message_content w
             /\ onEditMessage_given w' = onEditMessage_given w
             /\ message_loading w' = message_loading w
             /\ (edit_calls w' = edit_calls w
                 \/ exists t, edit_calls w' = edit_calls w ++ [t]
                              /\ onEditMessage_given w = true
                              /\ isEditing w = true
                              /\ t <> [] /\ trim t = t /\ t <> message_content w)).
  { intros draft Hed. cbv zeta. rewrite (saveEdit_spec draft Hed Hset).
    destruct (truthy (trim draft)) eqn:Htrim; cbn [andb];
      [destruct (strict_eq draft (message_content w)) eqn:Hdiff; cbn [negb]|];
      try (unfold settled; cbn; rewrite ?Hdiff; auto 6; fail).
    destruct (onEditMessage_given w) eqn:Hg; cbn [andb];
      [destruct (strict_eq (trim draft) (message_content w)) eqn:Htd; cbn [negb]|];
      unfold settled; cbn; rewrite ?strict_eq_refl;
      (split; [reflexivity|]); (split; [reflexivity|]); (split; [auto|]);
      (split; [reflexivity|]); auto.
    right. exists (trim draft). split; [reflexivity|]. split; [reflexivity|].
    split; [exact Hed|]. split; [now apply truthy_true|].
    split; [apply trim_idem | now apply strict_eq_false]. }
  assert (Hsave : isEditing w = true ->
             settle w (handleSave w) = saveEdit (editedContent w) w).
  { intros Hed. rewrite <- (press_save_spec Hed Hset). unfold press_save.
    now rewrite Hed. }
  destruct a as [|draft|ev| |]; cbn [act].
  - (* StartEdit *)
    unfold startEdit at 1 2 3 4 5 6.
    destruct (isEditing w) eqn:Hed; [same|].
    destruct (message_loading w) eqn:Hl; [same|]. cbn [negb andb].
    change (if negb false && negb false then settle w (handleStartEdit w) else w)
      with (settle w (handleStartEdit w)).
    assert (Hstart := startEdit_spec w Hed Hl). unfold startEdit in Hstart.
    rewrite Hed, Hl in Hstart. cbn [negb andb] in Hstart. rewrite Hstart.
    unfold settled. cbn. rewrite strict_eq_refl. auto 6.
  - (* TypeDraft *)
    destruct (isEditing w) eqn:Hed.
    + rewrite (type_draft_spec draft Hed Hset). unfold settled. cbn. auto 6.
    + unfold type_draft. rewrite Hed. same.
  - (* PressKey *)
    unfold press_key, handleKeyDown.
    destruct (isEditing w) eqn:Hed; [|same].
    destruct (strict_eq (key ev) (js "Enter") && (ctrlKey ev || metaKey ev)).
    + cbn [snd]. rewrite (Hsave eq_refl). now apply Hsaved.
    + destruct (strict_eq (key ev) (js "Escape")); cbn [snd].
      * assert (Hc := press_cancel_spec w Hed). unfold press_cancel in Hc.
        rewrite Hed in Hc. rewrite Hc. unfold settled. cbn.
        rewrite strict_eq_refl. auto 6.
      * rewrite settle_once; rewrite effects_settled; auto; same.
  - (* ClickSave *)
    unfold click_save.
    destruct (isEditing w) eqn:Hed; [|same].
    destruct (save_button_disabled w); [same|]. cbn [negb andb].
    rewrite (Hsave eq_refl). now apply Hsaved.
  - (* ClickCancel *)
    destruct (isEditing w) eqn:Hed.
    + rewrite (press_cancel_spec w Hed). unfold settled. cbn.
      rewrite strict_eq_refl. auto 6.
    + unfold press_cancel. rewrite Hed. same.
Qed.

(** A bubble that is loading and not being edited ignores every action. *)
Lemma act_idle (a : Action) (w : Editor) :
  isEditing w = false -> message_loading w = true -> act a w = w.
Proof.
  intros Hed Hl.
  destruct a; cbn [act];
    unfold startEdit, type_draft, press_key, click_save, press_cancel;
    rewrite Hed, ?Hl; reflexivity.
Qed.

Lemma act_well_kept (text : jsstring) (given loading : bool) (a : Action) (w : Editor) :
  well_kept text given loading w -> well_kept text given loading (act a w).
Proof.
  intros (Hset & Hc & Hg & Hl & Hclean & Hnone & Hbusy).
  destruct (act_step a Hset) as (Hset' & Hc' & Hg' & Hl' & Hcalls).
  destruct loading.
  - destruct (Hbusy eq_refl) as [Hed Hcalls0].
    rewrite (@act_idle a w Hed Hl). repeat split; auto.
  - repeat split; try congruence.
    + destruct Hcalls as [-> | (t & -> & _ & _ & Ht1 & Ht2 & Ht3)]; [exact Hclean|].
      apply Forall_app. split; [exact Hclean|].
      constructor; [|constructor]. repeat split; congruence.
    + intros Hgf. destruct Hcalls as [-> | (t & _ & Hgt & _)]; [auto|congruence].
Qed.

(** X14. Whatever the user does to the editor of a bubble (start, type,
    press keys, click Save or Cancel, in any order), every text handed to the
    host's [onEditMessage] is non-empty, trimmed and different from the
    message; nothing is handed over when the host gave no callback; and while
    the bubble is loading, edit mode cannot be entered at all. *)
Theorem editor_calls_are_clean (text : jsstring) (given loading : bool)
        (actions : list Action) :
  let w := act_all actions (fresh text given loading) in
  Forall (fun t => t <> [] /\ trim t = t /\ t <> text) (edit_calls w)
  /\ message_content w = text
  /\ hasChanges w = negb (strict_eq (editedContent w) text)
  /\ (given = false -> edit_calls w = [])
  /\ (loading = true -> isEditing w = false /\ edit_calls w = []).
Proof.
  intros w.
  assert (Hkept : well_kept text given loading w).
  { subst w. unfold act_all.
    assert (Hgen : forall l w0, well_kept text given loading w0 ->
                     well_kept text given loading (fold_left (fun w a => act a w) l w0)).
    { induction l as [|a l IH]; intros w0 H0; cbn [fold_left]; [exact H0|].
      apply IH. now apply act_well_kept. }
    apply Hgen. unfold well_kept, fresh, settled. cbn. rewrite strict_eq_refl.
    repeat split; auto. }
  destruct Hkept as (Hset & Hc & _ & _ & Hclean & Hnone & Hbusy).
  split; [exact Hclean|]. split; [exact Hc|]. split; [|split; assumption].
  unfold settled in Hset. now rewrite Hset, Hc.
Qed.

(** X15. A cancelled draft leaves no trace: from a settled open editor,
    typing any draft and cancelling leaves edit mode without calling the host,
    and starting to edit again shows the message itself, unchanged, with Save
    disabled. *)
Theorem cancel_discards_draft (w : Editor) (draft : jsstring) :
  isEditing w = true -> settled w -> message_loading w = false ->
  let cancelled := press_cancel (type_draft draft w) in
  let again := startEdit cancelled in
  isEditing cancelled = false
  /\ edit_calls cancelled = edit_calls w
  /\ isEditing again = true
  /\ editedContent again = message_content w
  /\ edit_calls again = edit_calls w
  /\ save_button_disabled again = true
  /\ click_save again = again.
Proof.
  intros Hed Hset Hl cancelled again. subst again cancelled.
  rewrite (type_draft_spec draft Hed Hset).
  rewrite press_cancel_spec by reflexivity.
  cbn [message_content onEditMessage_given message_loading edit_calls].
  rewrite startEdit_spec by (cbn; auto).
  cbn [message_content onEditMessage_given message_loading edit_calls isEditing
       editedContent].
  unfold click_save, save_button_disabled. cbn [hasChanges editedContent isEditing].
  rewrite orb_true_r. cbn. repeat split; reflexivity.
Qed.

(** *** Instances *)

Import Scenario.

Lemma keyboard_follows_buttons_witness :
  settled editing_hello
  /\ save_button_disabled editing_hello = true
  /\ press_key (mkKeyEvent (js "Enter") true false) editing_hello = editing_hello
  /\ press_key (mkKeyEvent (js "Enter") false false) (type_draft (js "hi") editing_hello)
     = type_draft (js "hi") editing_hello.
Proof.
  assert (Hset : settled editing_hello) by reflexivity.
  assert (Hset' : settled (type_draft (js "hi") editing_hello)) by reflexivity.
  destruct (@keyboard_follows_buttons editing_hello
              (mkKeyEvent (js "Enter") true false) Hset) as (Hsave & _).
  destruct (@keyboard_follows_buttons (type_draft (js "hi") editing_hello)
              (mkKeyEvent (js "Enter") false false) Hset') as (_ & _ & Hother).
  split; [exact Hset|]. split; [reflexivity|]. split.
  - destruct (Hsave eq_refl eq_refl) as [_ Hdis]. apply Hdis. reflexivity.
  - destruct Hother as [Hsame _]; [discriminate | right; reflexivity | exact Hsame].
Defined.

Lemma cancel_discards_draft_witness :
  isEditing editing_hello = true
  /\ settled editing_hello
  /\ message_loading editing_hello = false
  /\ editedContent (startEdit (press_cancel (type_draft (js "bye") editing_hello)))
     = js "hello"
  /\ edit_calls (startEdit (press_cancel (type_draft (js "bye") editing_hello))) = [].
Proof.
  destruct (@cancel_discards_draft editing_hello (js "bye") eq_refl eq_refl eq_refl)
    as (_ & _ & _ & Hdraft & Hcalls & _).
  split; [reflexivity|]. split; [reflexivity|]. split; [reflexivity|].
  split; [exact Hdraft | exact Hcalls].
Defined.

Lemma editor_calls_are_clean_witness :
  let w := act_all [StartEdit; TypeDraft (js "  hi there "); ClickSave;
                    StartEdit; TypeDraft (js "   ");
                    PressKey (mkKeyEvent (js "Enter") true false)]
                   (fresh (js "hello") true false) in
  edit_calls w = [js "hi there"]
  /\ isEditing w = true
  /\ Forall (fun t => t <> [] /\ trim t = t /\ t <> js "hello") (edit_calls w)
  /\ isEditing (act_all [StartEdit; TypeDraft (js "x"); ClickSave]
                        (fresh (js "hello") true true)) = false.
Proof.
  intros w. split; [reflexivity|]. split; [reflexivity|]. split.
  - exact (proj1 (@editor_calls_are_clean (js "hello") true false _)).
  - destruct (@editor_calls_are_clean (js "hello") true true
                [StartEdit; TypeDraft (js "x"); ClickSave]) as (_ & _ & _ & _ & Hbusy).
    exact (proj1 (Hbusy eq_refl)).
Defined.

End EditingMore.

(** ** The inline editor of the earlier bubble *)

Module InlineEditFacts.

Import InlineEdit.

(** X16. In the revision with the editor inline, Save on a blank draft does
    nothing (the button is disabled) and the bubble stays in edit mode. On any
    other draft Save leaves edit mode, and the host's callback is called
    exactly when it was given and the draft differs from the message, with the
    draft as typed, not trimmed. Editing again starts from the message text,
    not from the draft that was saved. *)
Theorem inline_save_outcomes (w : Bubble) (draft : jsstring) :
  isEditing w = true ->
  let typed := type_draft draft w in
  let saved := click_save typed in
  (trim draft = [] -> saved = typed /\ isEditing saved = true)
  /\ (trim draft <> [] ->
      isEditing saved = false
      /\ (onEditMessage_given w = true -> draft <> message_content w ->
          edit_calls saved = edit_calls w ++ [draft])
      /\ (onEditMessage_given w = false \/ draft = message_content w ->
          edit_calls saved = edit_calls w)
      /\ (edit_button_shown saved = true ->
          editedContent (click_edit saved) = message_content w
          /\ isEditing (click_edit saved) = true))
  /\ click_cancel typed
     = mkBubble (message_content w) (message_isUser w) (message_editInfo_canEdit w)
                (canEdit w) (onEditMessage_given w) false (message_content w)
                (menuAnchorEl w) (edit_calls w).
Proof.
  intros Hed typed saved. subst saved typed.
  destruct w as [c u me ce g e d m calls]. cbn in Hed. subst e.
  unfold type_draft, click_save, click_cancel, save_button_disabled, handleSave,
    handleCancel, click_edit, edit_button_shown, handleEdit.
  cbn [setEditedContent setIsEditing setMenuAnchorEl onEditMessage isEditing
       editedContent message_content onEditMessage_given edit_calls canEdit
       message_editInfo_canEdit message_isUser menuAnchorEl andb].
  split; [|split].
  - intros Hblank. rewrite Hblank. cbn. auto.
  - intros Htrim. apply truthy_true in Htrim. rewrite Htrim. cbn [negb].
    split; [now destruct (g && negb (strict_eq draft c))|]. split; [|split].
    + intros Hg Hdiff. apply strict_eq_false in Hdiff. now rewrite Hg, Hdiff.
    + intros [Hg | Hsame].
      * now rewrite Hg.
      * rewrite Hsame, strict_eq_refl, andb_false_r. reflexivity.
    + destruct (g && negb (strict_eq draft c));
        cbn [setEditedContent setIsEditing setMenuAnchorEl onEditMessage isEditing
             editedContent message_content onEditMessage_given edit_calls canEdit
             message_editInfo_canEdit message_isUser menuAnchorEl andb negb];
        intros Hshown; rewrite Hshown; split; reflexivity.
  - reflexivity.
Qed.

Import Scenario.

Lemma inline_save_outcomes_witness :
  isEditing inline_hello = true
  /\ edit_calls (click_save (type_draft (js "hello ") inline_hello)) = [js "hello "]
  /\ isEditing (click_save (type_draft (js "hello ") inline_hello)) = false
  /\ click_save (type_draft (js "  ") inline_hello) = type_draft (js "  ") inline_hello.
Proof.
  destruct (@inline_save_outcomes inline_hello (js "hello ") eq_refl)
    as (_ & Hsave & _).
  destruct (@inline_save_outcomes inline_hello (js "  ") eq_refl) as (Hblank & _).
  split; [reflexivity|].
  destruct Hsave as (Hexit & Hcall & _); [discriminate|].
  split; [apply Hcall; [reflexivity | discriminate]|].
  split; [exact Hexit|]. apply Hblank. reflexivity.
Defined.

End InlineEditFacts.

(** ** The bubble hosting the editor and the navigator *)

Module BubbleFacts.

Import Bubble.

Section WithEnvironment.

Context {E : Type} {env : Environment E}.

Implicit Types (w : World Props State E).

(** [copyToClipboard], by the answer of the clipboard. *)
Lemma copyToClipboard_spec w :
  let text := content (message (w_props w)) in
  copyToClipboard w
  = match clipboardWriteText text (w_env w) with
    | (Returned _, e') =>
        (Returned tt,
         mkWorld (w_props w)
                 (mkState true (S (pending_resets (w_state w))))
                 e' (w_log w ++ [CallClipboardWriteText text]))
    | (Thrown _, e') =>
        (Returned tt,
         mkWorld (w_props w) (w_state w) e'
                 (w_log w ++ [CallClipboardWriteText text;
                              ConsoleError (js "Failed to copy text:")]))
    end.
Proof.
  cbv zeta.
  unfold copyToClipboard, bind at 1, props, try_catch, bind, call, emit, setCopied,
    setTimeout_reset, modify.
  destruct (clipboardWriteText (content (message (w_props w))) (w_env w))
    as [[[]|err] e']; cbn [w_props w_state w_env w_log copied pending_resets];
    [reflexivity|].
  now rewrite <- app_assoc.
Qed.

Lemma timer_fires_spec w :
  timer_fires w
  = (Returned tt,
     match pending_resets (w_state w) with
     | O => w
     | S k => mkWorld (w_props w) (mkState false k) (w_env w) (w_log w)
     end).
Proof.
  unfold timer_fires, bind, state, ret, modify.
  now destruct (pending_resets (w_state w)).
Qed.

(** X17. Copying a message writes exactly [message.content] to the
    clipboard. When the write succeeds the Copied indicator is switched on and
    one reset is scheduled; when it fails the failure is only logged and the
    indicator and the timers are untouched. The handler never throws. In
    every state the bubble can reach, an indicator that is on has a reset
    pending, and every reset that runs leaves the indicator off, also when a
    later copy still has its own reset pending. *)
Theorem copy_indicator_always_resets w :
  let text := content (message (w_props w)) in
  let write := clipboardWriteText text (w_env w) in
  let w' := exec copyToClipboard w in
  returns copyToClipboard w = true
  /\ (forall e', write = (Returned tt, e') ->
      copied (w_state w') = true
      /\ pending_resets (w_state w') = S (pending_resets (w_state w))
      /\ w_log w' = w_log w ++ [CallClipboardWriteText text])
  /\ (forall err e', write = (Thrown err, e') ->
      w_state w' = w_state w
      /\ w_log w' = w_log w ++ [CallClipboardWriteText text;
                                ConsoleError (js "Failed to copy text:")])
  /\ (reachable w ->
      (copied (w_state w) = true -> (0 < pending_resets (w_state w))%nat)
      /\ copied (w_state (exec timer_fires w)) = false).
Proof.
  intros text write w'. subst w' write text.
  unfold returns, exec. rewrite copyToClipboard_spec.
  split; [|split; [|split]].
  - now destruct (clipboardWriteText _ _) as [[[]|?] ?].
  - intros e' Heq. rewrite Heq. cbn. auto.
  - intros err e' Heq. rewrite Heq. cbn. auto.
  - intros Hreach.
    assert (Hinv : copied (w_state w) = true -> (0 < pending_resets (w_state w))%nat).
    { induction Hreach as [p e | w st _ IH | w p _ IH | w e _ IH];
        cbn [w_state]; try exact IH.
      - cbn. discriminate.
      - destruct st; unfold exec; cbn [step].
        + rewrite copyToClipboard_spec.
          destruct (clipboardWriteText _ _) as [[[]|?] ?]; cbn; [lia | exact IH].
        + rewrite timer_fires_spec. cbn [snd].
          destruct (pending_resets (w_state w)) eqn:Hp;
            [rewrite Hp; exact IH | cbn; discriminate]. }
    split; [exact Hinv|].
    rewrite timer_fires_spec. cbn [snd].
    destruct (pending_resets (w_state w)) as [|k] eqn:Hp; [|reflexivity].
    destruct (copied (w_state w)); [|reflexivity].
    specialize (Hinv eq_refl). lia.
Qed.

End WithEnvironment.

(** X18. A message that carries no version numbers is navigated as version 1
    of 1: the label reads 1/1, next and previous both report version 1, and
    the report reaches [onSwitchVersion] only when the host gave one. A number
    the message does carry, other than 0, is passed on as it is. *)
Theorem unversioned_message_steps {E : Type} {env : Environment E}
        (p : Props) (w : World NavigatorV1.Props NavigatorV1.State E) :
  w_props w = navigator_props p ->
  (forall n, versionNumber (message p) = Some n -> n <> 0 ->
     NavigatorV1.currentVersion (w_props w) = n)
  /\ (versionNumber (message p) = None -> totalVersions (message p) = None ->
      NavigatorV1.render (w_props w) (w_state w)
      = Some (NavigatorV1.mkView (loading p) (1, 1) (NavigatorV1.dialogOpen (w_state w)))
      /\ w_log (exec NavigatorV1.handleNextVersion w)
         = w_log w ++ [HostOnVersionChange 1]
      /\ w_log (exec NavigatorV1.handlePreviousVersion w)
         = w_log w ++ [HostOnVersionChange 1]
      /\ forwarded (onSwitchVersion_given p) [HostOnVersionChange 1]
         = (if onSwitchVersion_given p then [1] else [])).
Proof.
  intros Hp. split.
  - intros n Hn Hnz. rewrite Hp. cbn. rewrite Hn. cbn.
    apply Z.eqb_neq in Hnz. now rewrite Hnz.
  - intros Hv Ht.
    unfold NavigatorV1.render, exec, NavigatorV1.handleNextVersion,
      NavigatorV1.handlePreviousVersion, NavigatorV1.onVersionChange, bind, props,
      emit.
    rewrite Hp. cbn. rewrite Hv, Ht. cbn.
    repeat split; try reflexivity.
    now destruct (onSwitchVersion_given p).
Qed.

Import Scripted Scenario.

Lemma copy_indicator_always_resets_witness :
  reachable copied_twice
  /\ copied (w_state copied_twice) = false
  /\ pending_resets (w_state copied_twice) = 0%nat
  /\ copied (w_state (exec timer_fires copied_twice)) = false.
Proof.
  assert (Hreach : reachable copied_twice)
    by (unfold copied_twice; repeat apply reach_step; apply reach_mount).
  destruct (@copy_indicator_always_resets _ _ copied_twice) as (_ & _ & _ & Hinv).
  destruct (Hinv Hreach) as [_ Hoff].
  split; [exact Hreach|]. split; [reflexivity|]. split; [reflexivity|].
  exact Hoff.
Defined.

Lemma unversioned_message_steps_witness :
  w_props unversioned_navigator = navigator_props unversioned
  /\ w_log (exec NavigatorV1.handleNextVersion unversioned_navigator)
     = [HostOnVersionChange 1]
  /\ forwarded true [HostOnVersionChange 1] = [1].
Proof.
  destruct (@unversioned_message_steps _ _ unversioned unversioned_navigator eq_refl)
    as [_ Hnone].
  destruct (Hnone eq_refl eq_refl) as (_ & Hnext & _ & Hfwd).
  split; [reflexivity|]. split; [exact Hnext | exact Hfwd].
Defined.

End BubbleFacts.
